(** * decode-jwt: the payload decoder of test-deployment/decode-jwt.py

    A shallow embedding of the script and of the parts of the Python
    standard library it calls (str.split, str.strip, base64.urlsafe_b64decode,
    json.loads, json.dumps), followed by the properties of the decoder.

    Conventions of the embedding
    - a Python [str] is the list of its code points, a [bytes] object the
      list of its bytes, both as lists over [N];
    - [print] appends a line to a trace; calls into base64 and json are
      recorded in the same trace, so that "nothing was decoded" can be read
      off a run;
    - an exception is a value carrying its class and its message; every
      exception the library functions raise here derives from [Exception];
    - resource limits of the interpreter (recursion depth, the 4300 digit
      limit of int(), memory) are not part of the embedding. *)

From Stdlib Require Import String Ascii List NArith ZArith Lia Bool.
Import ListNotations.

Open Scope N_scope.

(** ** Strings and bytes *)

Definition str := list N.
Definition bytes := list N.

Definition ord (a : ascii) : N := N_of_ascii a.

(** The Python string literal with the given ASCII text. *)
Definition lit (s : string) : str := map ord (list_ascii_of_string s).

Definition len {A} (l : list A) : N := N.of_nat (length l).

(** [mul_str c n] is the Python expression [c * n] for a one-character string. *)
Definition mul_str (c : N) (n : N) : str := repeat c (N.to_nat n).

(** [token.split(sep)] for a one-character separator. *)
Fixpoint split (sep : N) (s : str) : list str :=
  match s with
  | [] => [[]]
  | c :: s' =>
      if c =? sep then [] :: split sep s'
      else match split sep s' with
           | [] => [[c]]
           | p :: ps => (c :: p) :: ps
           end
  end.

(** [str.isspace] on one code point: the characters whose bidirectional
    class is WS, B or S, or whose category is Zs. *)
Definition isspace (c : N) : bool :=
  ((9 <=? c) && (c <=? 13)) || ((28 <=? c) && (c <=? 32))
  || (c =? 133) || (c =? 160) || (c =? 5760)
  || ((8192 <=? c) && (c <=? 8202))
  || (c =? 8232) || (c =? 8233) || (c =? 8239) || (c =? 8287) || (c =? 12288).

Fixpoint lstrip (s : str) : str :=
  match s with
  | c :: s' => if isspace c then lstrip s' else s
  | [] => []
  end.

Definition rstrip (s : str) : str := rev (lstrip (rev s)).

(** [s.strip()] *)
Definition strip (s : str) : str := rstrip (lstrip s).

(** Decimal text of a number, as [str(n)] or ["%d" % n] gives it. *)
Fixpoint digits_fuel (fuel : nat) (n : N) (acc : str) : str :=
  match fuel with
  | O => acc
  | S fuel' =>
      let acc' := (48 + n mod 10) :: acc in
      if n <? 10 then acc' else digits_fuel fuel' (n / 10) acc'
  end.

Definition str_of_N (n : N) : str := digits_fuel (S (N.to_nat (N.log2 n))) n [].

Definition str_of_Z (z : Z) : str :=
  match z with
  | Zneg p => ord "-" :: str_of_N (Npos p)
  | _ => str_of_N (Z.to_N z)
  end.

(** ** Exceptions *)

Inductive exn_class :=
| ValueError
| BinasciiError
| UnicodeDecodeError
| JSONDecodeError
| RecursionErrorClass.

Record exn := Exn { exn_cls : exn_class; exn_msg : str }.

(** [str(e)], the text an f-string substitutes for [{e}]. *)
Definition str_of_exn (e : exn) : str := exn_msg e.

Definition result (A : Type) : Type := exn + A.

Definition rbind {A B} (r : result A) (k : A -> result B) : result B :=
  match r with
  | inl e => inl e
  | inr a => k a
  end.

(** ** base64.urlsafe_b64decode *)

Module Base64.

(** table_a2b_base64 of binascii: the 6-bit value of an alphabet character,
    64 and above for every other character. *)
Definition table_a2b_base64 (c : N) : N :=
  if (65 <=? c) && (c <=? 90) then c - 65
  else if (97 <=? c) && (c <=? 122) then c - 97 + 26
  else if (48 <=? c) && (c <=? 57) then c - 48 + 52
  else if c =? 43 then 62
  else if c =? 47 then 63
  else 255.

Definition BASE64_PAD : N := 61.

Definition emit (b : N) (r : result bytes) : result bytes :=
  match r with
  | inl e => inl e
  | inr bs => inr (b :: bs)
  end.

Definition error_one_more (nout : N) : exn :=
  Exn BinasciiError
      (lit "Invalid base64-encoded string: number of data characters ("
       ++ str_of_N (nout / 3 * 4 + 1)
       ++ lit ") cannot be 1 more than a multiple of 4").

Definition error_padding : exn := Exn BinasciiError (lit "Incorrect padding").

(** The loop of binascii.a2b_base64 with strict_mode off.  [quad_pos],
    [leftchar] and [pads] are the C locals; [nout] counts the bytes written
    so far (bin_data - bin_data_start); the bytes written from here on are
    the result.  Bytes are stored through an unsigned char pointer, hence
    the mask. *)
Fixpoint a2b_loop (data : bytes) (quad_pos leftchar pads nout : N)
  : result bytes :=
  match data with
  | [] =>
      if quad_pos =? 0 then inr []
      else if quad_pos =? 1 then inl (error_one_more nout)
      else inl error_padding
  | c :: rest =>
      if c =? BASE64_PAD then
        if 2 <=? quad_pos then
          if 4 <=? quad_pos + (pads + 1) then inr []
          else a2b_loop rest quad_pos leftchar (pads + 1) nout
        else a2b_loop rest quad_pos leftchar pads nout
      else
        let this_ch := table_a2b_base64 c in
        if 64 <=? this_ch then a2b_loop rest quad_pos leftchar pads nout
        else
          if quad_pos =? 0 then a2b_loop rest 1 this_ch 0 nout
          else if quad_pos =? 1 then
            emit (N.land (N.lor (N.shiftl leftchar 2) (N.shiftr this_ch 4)) 255)
                 (a2b_loop rest 2 (N.land this_ch 15) 0 (nout + 1))
          else if quad_pos =? 2 then
            emit (N.land (N.lor (N.shiftl leftchar 4) (N.shiftr this_ch 2)) 255)
                 (a2b_loop rest 3 (N.land this_ch 3) 0 (nout + 1))
          else
            emit (N.land (N.lor (N.shiftl leftchar 6) this_ch) 255)
                 (a2b_loop rest 0 0 0 (nout + 1))
  end.

Definition a2b_base64 (data : bytes) : result bytes := a2b_loop data 0 0 0 0.

(** _bytes_from_decode_data on a str argument: s.encode('ascii'). *)
Definition bytes_from_decode_data (s : str) : result bytes :=
  if forallb (fun c => c <? 128) s then inr s
  else inl (Exn ValueError
                (lit "string argument should contain only ASCII characters")).

(** s.translate(_urlsafe_decode_translation): '-' to '+', '_' to '/'. *)
Definition urlsafe_translate (c : N) : N :=
  if c =? 45 then 43 else if c =? 95 then 47 else c.

Definition urlsafe_b64decode (s : str) : result bytes :=
  rbind (bytes_from_decode_data s)
        (fun b => a2b_base64 (map urlsafe_translate b)).

End Base64.

(** ** bytes.decode(encoding, 'surrogatepass') for the encodings json uses *)

Module Codec.

Definition hex_digit (d : N) : N := if d <? 10 then 48 + d else 87 + d.

(** "%02x" *)
Definition hex2 (b : N) : str := [hex_digit (b / 16 mod 16); hex_digit (b mod 16)].

(** The message of a UnicodeDecodeError over the bytes [start, stop). *)
Definition decode_error (codec : string) (byte start stop : N) (reason : string)
  : exn :=
  Exn UnicodeDecodeError
      (lit "'" ++ lit codec ++
       (if stop - start =? 1
        then lit "' codec can't decode byte 0x" ++ hex2 byte
             ++ lit " in position " ++ str_of_N start
        else lit "' codec can't decode bytes in position " ++ str_of_N start
             ++ lit "-" ++ str_of_N (stop - 1))
       ++ lit ": " ++ lit reason).

Definition emit (c : N) (r : result str) : result str :=
  match r with
  | inl e => inl e
  | inr s => inr (c :: s)
  end.

Definition is_continuation (b : N) : bool := N.land b 192 =? 128.

Definition is_surrogate (c : N) : bool := (55296 <=? c) && (c <=? 57343).
Definition is_high_surrogate (c : N) : bool := (55296 <=? c) && (c <=? 56319).
Definition is_low_surrogate (c : N) : bool := (56320 <=? c) && (c <=? 57343).

Definition join_surrogates (hi lo : N) : N :=
  65536 + N.lor (N.shiftl (hi - 55296) 10) (lo - 56320).

(** The UTF-8 decoder of CPython (stringlib utf8_decode) under the
    surrogatepass handler: well-formed sequences, and the three-byte
    encodings of surrogates.  [pos] is the index of the first byte of [s]. *)
Fixpoint utf8_decode (s : bytes) (pos : N) : result str :=
  let err stop reason :=
    inl (decode_error "utf-8" (hd 0 s) pos stop reason) in
  match s with
  | [] => inr []
  | ch :: s1 =>
      if ch <? 128 then emit ch (utf8_decode s1 (pos + 1))
      else if ch <? 194 then err (pos + 1) "invalid start byte"%string
      else if ch <? 224 then
        match s1 with
        | [] => err (pos + 1) "unexpected end of data"%string
        | ch2 :: s2 =>
            if negb (is_continuation ch2)
            then err (pos + 1) "invalid continuation byte"%string
            else emit (N.lor (N.shiftl (N.land ch 31) 6) (N.land ch2 63))
                      (utf8_decode s2 (pos + 2))
        end
      else if ch <? 240 then
        match s1 with
        | [] => err (pos + 1) "unexpected end of data"%string
        | ch2 :: s2 =>
            if negb (is_continuation ch2)
               || (if ch2 <? 160 then ch =? 224 else ch =? 237)
            then
              (* surrogatepass: a three-byte code of a surrogate is let through *)
              match s2 with
              | ch3 :: s3 =>
                  let c := N.shiftl (N.land ch 15) 12
                           + N.shiftl (N.land ch2 63) 6 + N.land ch3 63 in
                  if is_continuation ch2 && is_continuation ch3
                     && is_surrogate c
                  then emit c (utf8_decode s3 (pos + 3))
                  else err (pos + 1) "invalid continuation byte"%string
              | [] => err (pos + 1) "invalid continuation byte"%string
              end
            else
              match s2 with
              | [] => err (pos + 2) "unexpected end of data"%string
              | ch3 :: s3 =>
                  if negb (is_continuation ch3)
                  then err (pos + 2) "invalid continuation byte"%string
                  else emit (N.lor (N.lor (N.shiftl (N.land ch 15) 12)
                                          (N.shiftl (N.land ch2 63) 6))
                                   (N.land ch3 63))
                            (utf8_decode s3 (pos + 3))
              end
        end
      else if ch <? 245 then
        match s1 with
        | [] => err (pos + 1) "unexpected end of data"%string
        | ch2 :: s2 =>
            if negb (is_continuation ch2)
               || (if ch2 <? 144 then ch =? 240 else ch =? 244)
            then err (pos + 1) "invalid continuation byte"%string
            else
              match s2 with
              | [] => err (pos + 2) "unexpected end of data"%string
              | ch3 :: s3 =>
                  if negb (is_continuation ch3)
                  then err (pos + 2) "invalid continuation byte"%string
                  else
                    match s3 with
                    | [] => err (pos + 3) "unexpected end of data"%string
                    | ch4 :: s4 =>
                        if negb (is_continuation ch4)
                        then err (pos + 3) "invalid continuation byte"%string
                        else emit (N.lor (N.lor (N.lor
                                      (N.shiftl (N.land ch 7) 18)
                                      (N.shiftl (N.land ch2 63) 12))
                                      (N.shiftl (N.land ch3 63) 6))
                                      (N.land ch4 63))
                                  (utf8_decode s4 (pos + 4))
                    end
              end
        end
      else err (pos + 1) "invalid start byte"%string
  end.

(** One UTF-16 code unit from two bytes. *)
Definition unit16 (big_endian : bool) (a b : N) : N :=
  if big_endian then a * 256 + b else b * 256 + a.

Definition codec16 (big_endian : bool) : string :=
  if big_endian then "utf-16-be"%string else "utf-16-le"%string.

(** UTF-16 under surrogatepass: pairs are joined, lone surrogates pass. *)
Fixpoint utf16_decode (be : bool) (s : bytes) (pos : N) : result str :=
  match s with
  | [] => inr []
  | [a] => inl (decode_error (codec16 be) a pos (pos + 1) "truncated data")
  | a :: b :: rest =>
      let u := unit16 be a b in
      match rest with
      | c :: d :: rest' =>
          if is_high_surrogate u && is_low_surrogate (unit16 be c d)
          then emit (join_surrogates u (unit16 be c d))
                    (utf16_decode be rest' (pos + 4))
          else emit u (utf16_decode be rest (pos + 2))
      | _ => emit u (utf16_decode be rest (pos + 2))
      end
  end.

Definition unit32 (big_endian : bool) (a b c d : N) : N :=
  if big_endian then ((a * 256 + b) * 256 + c) * 256 + d
  else ((d * 256 + c) * 256 + b) * 256 + a.

Definition codec32 (big_endian : bool) : string :=
  if big_endian then "utf-32-be"%string else "utf-32-le"%string.

(** UTF-32 under surrogatepass. *)
Fixpoint utf32_decode (be : bool) (s : bytes) (pos : N) : result str :=
  match s with
  | [] => inr []
  | a :: b :: c :: d :: rest =>
      let u := unit32 be a b c d in
      if 1114112 <=? u
      then inl (decode_error (codec32 be) a pos (pos + 4)
                             "code point not in range(0x110000)")
      else emit u (utf32_decode be rest (pos + 4))
  | a :: _ => inl (decode_error (codec32 be) a pos (pos + len s) "truncated data")
  end.

Inductive encoding :=
| UTF8 | UTF8_SIG | UTF16 | UTF16_BE | UTF16_LE | UTF32 | UTF32_BE | UTF32_LE.

Fixpoint startswith (prefix s : list N) : bool :=
  match prefix, s with
  | [], _ => true
  | p :: prefix', c :: s' => (p =? c) && startswith prefix' s'
  | _ :: _, [] => false
  end.

Definition BOM_UTF8 : bytes := [239; 187; 191].
Definition BOM_UTF16_LE : bytes := [255; 254].
Definition BOM_UTF16_BE : bytes := [254; 255].
Definition BOM_UTF32_LE : bytes := [255; 254; 0; 0].
Definition BOM_UTF32_BE : bytes := [0; 0; 254; 255].

(** json.detect_encoding *)
Definition detect_encoding (b : bytes) : encoding :=
  if startswith BOM_UTF32_BE b || startswith BOM_UTF32_LE b then UTF32
  else if startswith BOM_UTF16_BE b || startswith BOM_UTF16_LE b then UTF16
  else if startswith BOM_UTF8 b then UTF8_SIG
  else
    match b with
    | b0 :: b1 :: b2 :: b3 :: _ =>
        if b0 =? 0 then (if b1 =? 0 then UTF32_BE else UTF16_BE)
        else if b1 =? 0
             then (if (b2 =? 0) && (b3 =? 0) then UTF32_LE else UTF16_LE)
             else UTF8
    | [b0; b1] =>
        if b0 =? 0 then UTF16_BE
        else if b1 =? 0 then UTF16_LE
        else UTF8
    | _ => UTF8
    end.

(** b.decode(encoding, 'surrogatepass') *)
Definition decode (e : encoding) (b : bytes) : result str :=
  match e with
  | UTF8 => utf8_decode b 0
  | UTF8_SIG =>
      if startswith BOM_UTF8 b then utf8_decode (skipn 3 b) 0
      else utf8_decode b 0
  | UTF16_BE => utf16_decode true b 0
  | UTF16_LE => utf16_decode false b 0
  | UTF16 =>
      if startswith BOM_UTF16_BE b then utf16_decode true (skipn 2 b) 2
      else if startswith BOM_UTF16_LE b then utf16_decode false (skipn 2 b) 2
      else utf16_decode false b 0
  | UTF32_BE => utf32_decode true b 0
  | UTF32_LE => utf32_decode false b 0
  | UTF32 =>
      if startswith BOM_UTF32_BE b then utf32_decode true (skipn 4 b) 4
      else if startswith BOM_UTF32_LE b then utf32_decode false (skipn 4 b) 4
      else utf32_decode false b 0
  end.

End Codec.

(** ** json.loads *)

Module Json.

(** The Python values json.loads returns.  A float is kept as the text it
    was read from (binary64 rounding is outside the embedding); a dict keeps
    its items in insertion order. *)
#[local] Unset Elimination Schemes.
Inductive json :=
| JNull
| JBool (b : bool)
| JInt (z : Z)
| JFloat (text : str)
| JStr (s : str)
| JList (l : list json)
| JDict (d : list (str * json)).
#[local] Set Elimination Schemes.

(** A failed scan: the message of the JSONDecodeError and the rest of the
    document at the character it points to; or the recursion limit. *)
Inductive perror :=
| SyntaxError (msg : string) (rest : str)
| RecursionError.

Definition presult (A : Type) : Type := perror + A.

Definition is_ws (c : N) : bool :=
  (c =? 32) || (c =? 9) || (c =? 10) || (c =? 13).

Fixpoint skip_ws (s : str) : str :=
  match s with
  | c :: s' => if is_ws c then skip_ws s' else s
  | [] => []
  end.

Definition isdigit (c : N) : bool := (48 <=? c) && (c <=? 57).

Definition hexval (c : N) : option N :=
  if isdigit c then Some (c - 48)
  else if (97 <=? c) && (c <=? 102) then Some (c - 87)
  else if (65 <=? c) && (c <=? 70) then Some (c - 55)
  else None.

Definition hex4 (h1 h2 h3 h4 : N) : option N :=
  match hexval h1, hexval h2, hexval h3, hexval h4 with
  | Some a, Some b, Some c, Some d => Some (((a * 16 + b) * 16 + c) * 16 + d)
  | _, _, _, _ => None
  end.

(** The BACKSLASH table of json.decoder. *)
Definition backslash (c : N) : option N :=
  if c =? 34 then Some 34          (* quote *)
  else if c =? 92 then Some 92     (* backslash *)
  else if c =? 47 then Some 47     (* slash *)
  else if c =? 98 then Some 8      (* b *)
  else if c =? 102 then Some 12    (* f *)
  else if c =? 110 then Some 10    (* n *)
  else if c =? 114 then Some 13    (* r *)
  else if c =? 116 then Some 9     (* t *)
  else None.

Definition emit {A} (c : N) (r : presult (str * A)) : presult (str * A) :=
  match r with
  | inl e => inl e
  | inr (s, rest) => inr (c :: s, rest)
  end.

(** scanstring (strict): [s] follows the opening quote, [begin] starts at
    it.  Gives the decoded string and what follows the closing quote. *)
Fixpoint scanstring (begin s : str) : presult (str * str) :=
  match s with
  | [] => inl (SyntaxError "Unterminated string starting at" begin)
  | c :: s1 =>
      if c =? 34 then inr ([], s1)
      else if c =? 92 then
        match s1 with
        | [] => inl (SyntaxError "Unterminated string starting at" begin)
        | e :: s2 =>
            if e =? 117 then
              match s2 with
              | h1 :: h2 :: h3 :: h4 :: ((_ :: _) as s6) =>
                  match hex4 h1 h2 h3 h4 with
                  | None => inl (SyntaxError "Invalid \uXXXX escape" s1)
                  | Some u =>
                      match s6 with
                      | b :: e2 :: g1 :: g2 :: g3 :: g4 :: ((_ :: _) as s12) =>
                          if Codec.is_high_surrogate u
                             && (b =? 92) && (e2 =? 117)
                          then
                            match hex4 g1 g2 g3 g4 with
                            | None =>
                                inl (SyntaxError "Invalid \uXXXX escape"
                                                 (tl s6))
                            | Some u2 =>
                                if Codec.is_low_surrogate u2
                                then emit (Codec.join_surrogates u u2)
                                          (scanstring begin s12)
                                else emit u (scanstring begin s6)
                            end
                          else emit u (scanstring begin s6)
                      | _ => emit u (scanstring begin s6)
                      end
                  end
              | _ => inl (SyntaxError "Invalid \uXXXX escape" s1)
              end
            else
              match backslash e with
              | Some c' => emit c' (scanstring begin s2)
              | None => inl (SyntaxError "Invalid \escape" s)
              end
        end
      else if c <=? 31
      then inl (SyntaxError "Invalid control character at" s)
      else emit c (scanstring begin s1)
  end.

Fixpoint span_digits (s : str) : str * str :=
  match s with
  | c :: s' =>
      if isdigit c then let (d, r) := span_digits s' in (c :: d, r)
      else ([], s)
  | [] => ([], [])
  end.

(** The value of a run of decimal digits. *)
Definition N_of_digits (ds : str) : N :=
  fold_left (fun acc d => acc * 10 + (d - 48)) ds 0.

(** int(text) on the integer part the scanner matched. *)
Definition int_of_text (t : str) : Z :=
  match t with
  | c :: ds => if c =? 45 then (- Z.of_N (N_of_digits ds))%Z
               else Z.of_N (N_of_digits t)
  | [] => 0%Z
  end.

(** The fraction of a number: a dot and at least one digit. *)
Definition match_frac (s : str) : str * str :=
  match s with
  | c :: ((d :: _) as s1) =>
      if (c =? 46) && isdigit d
      then let (ds, r) := span_digits s1 in (c :: ds, r)
      else ([], s)
  | _ => ([], s)
  end.

(** The exponent of a number: e or E, an optional sign, at least one digit;
    the scanner backtracks when no digit follows. *)
Definition match_exp (s : str) : str * str :=
  match s with
  | c :: s1 =>
      if (c =? 101) || (c =? 69) then
        match s1 with
        | g :: s2 =>
            if (g =? 45) || (g =? 43) then
              match span_digits s2 with
              | ([], _) => ([], s)
              | (ds, r) => (c :: g :: ds, r)
              end
            else
              match span_digits s1 with
              | ([], _) => ([], s)
              | (ds, r) => (c :: ds, r)
              end
        | [] => ([], s)
        end
      else ([], s)
  | [] => ([], s)
  end.

(** NUMBER_RE: the integer part, then the optional fraction and exponent. *)
Definition match_integer (s : str) : option (str * str) :=
  let body sign s1 :=
    match s1 with
    | c :: s2 =>
        if (49 <=? c) && (c <=? 57)
        then let (ds, r) := span_digits s2 in Some (sign ++ c :: ds, r)
        else if c =? 48 then Some (sign ++ [c], s2)
        else None
    | [] => None
    end in
  match s with
  | c :: s1 => if c =? 45 then body [c] s1 else body [] s
  | [] => None
  end.

Definition match_number (s : str) : option (json * str) :=
  match match_integer s with
  | None => None
  | Some (integer, r) =>
      let (frac, r1) := match_frac r in
      let (exp, r2) := match_exp r1 in
      match frac, exp with
      | [], [] => Some (JInt (int_of_text integer), r2)
      | _, _ => Some (JFloat (integer ++ frac ++ exp), r2)
      end
  end.

(** dict[key] = value *)
Fixpoint dict_set (k : str) (v : json) (d : list (str * json))
  : list (str * json) :=
  match d with
  | [] => [(k, v)]
  | (k', v') :: d' =>
      if list_eq_dec N.eq_dec k k' then (k', v) :: d'
      else (k', v') :: dict_set k v d'
  end.

(** dict(pairs) *)
Definition dict_of_pairs (pairs : list (str * json)) : list (str * json) :=
  fold_left (fun d kv => dict_set (fst kv) (snd kv) d) pairs [].

Definition literal (name : string) (v : json) (s : str)
  : option (json * str) :=
  if Codec.startswith (lit name) s
  then Some (v, skipn (String.length name) s)
  else None.

Definition first_some {A} (a b : option A) : option A :=
  match a with
  | Some _ => a
  | None => b
  end.

(** What scan_once reads when the value is not a string, object or array. *)
Definition scan_atom (s : str) : option (json * str) :=
  first_some (literal "null" JNull s)
  (first_some (literal "true" (JBool true) s)
  (first_some (literal "false" (JBool false) s)
  (first_some (match_number s)
  (first_some (literal "NaN" (JFloat (lit "NaN")) s)
  (first_some (literal "Infinity" (JFloat (lit "Infinity")) s)
              (literal "-Infinity" (JFloat (lit "-Infinity")) s)))))).

(** scan_once, with the loops of the object and array parsers.  [fuel]
    bounds the nesting. *)
Fixpoint scan_once (fuel : nat) (s : str) {struct fuel}
  : presult (json * str) :=
  match fuel with
  | O => inl RecursionError
  | S fuel' =>
      match s with
      | [] => inl (SyntaxError "Expecting value" s)
      | c :: s1 =>
          if c =? 34 then
            match scanstring s s1 with
            | inl e => inl e
            | inr (v, r) => inr (JStr v, r)
            end
          else if c =? 123 then
            match skip_ws s1 with
            | c2 :: r =>
                if c2 =? 125 then inr (JDict [], r)
                else
                  match parse_members fuel' (skip_ws s1) with
                  | inl e => inl e
                  | inr (pairs, r') => inr (JDict (dict_of_pairs pairs), r')
                  end
            | [] =>
                inl (SyntaxError
                       "Expecting property name enclosed in double quotes" [])
            end
          else if c =? 91 then
            match skip_ws s1 with
            | c2 :: r =>
                if c2 =? 93 then inr (JList [], r)
                else
                  match parse_elements fuel' (skip_ws s1) with
                  | inl e => inl e
                  | inr (vs, r') => inr (JList vs, r')
                  end
            | [] => inl (SyntaxError "Expecting value" [])
            end
          else
            match scan_atom s with
            | Some r => inr r
            | None => inl (SyntaxError "Expecting value" s)
            end
      end
  end

with parse_members (fuel : nat) (s : str) {struct fuel}
  : presult (list (str * json) * str) :=
  match fuel with
  | O => inl RecursionError
  | S fuel' =>
      match s with
      | c :: s1 =>
          if c =? 34 then
            match scanstring s s1 with
            | inl e => inl e
            | inr (key, r) =>
                match skip_ws r with
                | c2 :: r2 =>
                    if c2 =? 58 then
                      match scan_once fuel' (skip_ws r2) with
                      | inl e => inl e
                      | inr (v, r4) =>
                          match skip_ws r4 with
                          | c3 :: r6 =>
                              if c3 =? 125 then inr ([(key, v)], r6)
                              else if c3 =? 44 then
                                match parse_members fuel' (skip_ws r6) with
                                | inl e => inl e
                                | inr (ps, r7) => inr ((key, v) :: ps, r7)
                                end
                              else inl (SyntaxError "Expecting ',' delimiter"
                                                    (skip_ws r4))
                          | [] => inl (SyntaxError "Expecting ',' delimiter" [])
                          end
                      end
                    else inl (SyntaxError "Expecting ':' delimiter" (skip_ws r))
                | [] => inl (SyntaxError "Expecting ':' delimiter" [])
                end
            end
          else inl (SyntaxError
                      "Expecting property name enclosed in double quotes" s)
      | [] => inl (SyntaxError
                     "Expecting property name enclosed in double quotes" [])
      end
  end

with parse_elements (fuel : nat) (s : str) {struct fuel}
  : presult (list json * str) :=
  match fuel with
  | O => inl RecursionError
  | S fuel' =>
      match scan_once fuel' s with
      | inl e => inl e
      | inr (v, r) =>
          match skip_ws r with
          | c :: r2 =>
              if c =? 93 then inr ([v], r2)
              else if c =? 44 then
                match parse_elements fuel' (skip_ws r2) with
                | inl e => inl e
                | inr (vs, r3) => inr (v :: vs, r3)
                end
              else inl (SyntaxError "Expecting ',' delimiter" (skip_ws r))
          | [] => inl (SyntaxError "Expecting ',' delimiter" [])
          end
      end
  end.

(** The text of a JSONDecodeError raised at index [pos] of [doc]. *)
Definition errmsg (msg : string) (doc : str) (pos : N) : str :=
  let before := firstn (N.to_nat pos) doc in
  let lineno := len (filter (N.eqb 10) before) + 1 in
  let colno := len (last (split 10 before) []) + 1 in
  lit msg ++ lit ": line " ++ str_of_N lineno ++ lit " column "
  ++ str_of_N colno ++ lit " (char " ++ str_of_N pos ++ lit ")".

Definition raise_at (msg : string) (doc rest : str) : exn :=
  Exn JSONDecodeError (errmsg msg doc (len doc - len rest)).

Definition recursion_error : exn :=
  Exn RecursionErrorClass (lit "maximum recursion depth exceeded").

(** JSONDecoder.decode on a str *)
Definition decode (doc : str) : result json :=
  match scan_once (2 * length doc + 2) (skip_ws doc) with
  | inl (SyntaxError msg rest) => inl (raise_at msg doc rest)
  | inl RecursionError => inl recursion_error
  | inr (obj, rest) =>
      match skip_ws rest with
      | [] => inr obj
      | _ :: _ => inl (raise_at "Extra data" doc (skip_ws rest))
      end
  end.

(** json.loads on a bytes argument *)
Definition loads (b : bytes) : result json :=
  rbind (Codec.decode (Codec.detect_encoding b) b) decode.

End Json.

(** ** Truth values and json.dumps *)

Module Encoder.
Import Json.

(** Whether float(text) is 0.0, for the text of a JSON number with a
    fraction or an exponent.  The literal denotes m * 10^e; conversion rounds
    to nearest, ties to even, so it gives zero exactly when the magnitude is
    at most 2^-1075, half of the least subnormal.  NaN and the infinities,
    which have no digits, are not zero. *)
Definition float_is_zero (text : str) : bool :=
  let body := match text with
              | c :: t => if c =? 45 then t else text
              | [] => []
              end in
  let (ipart, r) := span_digits body in
  match ipart with
  | [] => false
  | _ :: _ =>
      let (frac, r1) := match_frac r in
      let (exp, _) := match_exp r1 in
      let e := match exp with
               | _ :: g :: ds =>
                   if g =? 45 then (- Z.of_N (N_of_digits ds))%Z
                   else if g =? 43 then Z.of_N (N_of_digits ds)
                   else Z.of_N (N_of_digits (g :: ds))
               | _ => 0%Z
               end in
      let m := Z.of_N (N_of_digits (ipart ++ tl frac)) in
      let e10 := (e - Z.of_nat (length (tl frac)))%Z in
      if (m =? 0)%Z then true
      else if (0 <=? e10)%Z then false
      else (m * 2 ^ 1075 <=? 10 ^ (- e10))%Z
  end.

(** bool(v), the test an [if v:] makes. *)
Definition truthy (v : json) : bool :=
  match v with
  | JNull => false
  | JBool b => b
  | JInt z => negb (z =? 0)%Z
  | JFloat t => negb (float_is_zero t)
  | JStr s => negb (len s =? 0)
  | JList l => negb (len l =? 0)
  | JDict d => negb (len d =? 0)
  end.

(** "\\u{0:04x}".format(n) *)
Definition u_escape (n : N) : str :=
  [92; 117; Codec.hex_digit (n / 4096 mod 16); Codec.hex_digit (n / 256 mod 16);
   Codec.hex_digit (n / 16 mod 16); Codec.hex_digit (n mod 16)].

(** The replacement of one character in encode_basestring_ascii. *)
Definition escape_ascii (c : N) : str :=
  if c =? 34 then [92; 34]
  else if c =? 92 then [92; 92]
  else if c =? 10 then [92; 110]
  else if c =? 13 then [92; 114]
  else if c =? 9 then [92; 116]
  else if c =? 8 then [92; 98]
  else if c =? 12 then [92; 102]
  else if (32 <=? c) && (c <=? 126) then [c]
  else if c <? 65536 then u_escape c
  else
    let n := c - 65536 in
    u_escape (N.lor 55296 (N.land (N.shiftr n 10) 1023))
    ++ u_escape (N.lor 56320 (N.land n 1023)).

Definition encode_basestring_ascii (s : str) : str :=
  [34] ++ flat_map escape_ascii s ++ [34].

Fixpoint join (sep : str) (chunks : list str) : str :=
  match chunks with
  | [] => []
  | [x] => x
  | x :: rest => x ++ sep ++ join sep rest
  end.

Section Iterencode.

(** [floatstr t]: the text json gives the float read from [t]
    (float.__repr__, or NaN, Infinity, -Infinity). *)
Variable floatstr : str -> str.

(** [indent]: None, or the string one level indents by. *)
Variable indent : option str.
Variables item_separator key_separator : str.

Definition newline_indent (level : nat) : str :=
  match indent with
  | None => []
  | Some unit_ => [10] ++ concat (repeat unit_ level)
  end.

(** _make_iterencode, the chunks joined. *)
Fixpoint iterencode (level : nat) (o : json) {struct o} : str :=
  match o with
  | JStr s => encode_basestring_ascii s
  | JNull => lit "null"
  | JBool true => lit "true"
  | JBool false => lit "false"
  | JInt z => str_of_Z z
  | JFloat t => floatstr t
  | JList [] => lit "[]"
  | JList l =>
      lit "[" ++ newline_indent (S level)
      ++ join (item_separator ++ newline_indent (S level))
              (map (iterencode (S level)) l)
      ++ newline_indent level ++ lit "]"
  | JDict [] => lit "{}"
  | JDict d =>
      lit "{" ++ newline_indent (S level)
      ++ join (item_separator ++ newline_indent (S level))
              (map (fun kv : str * json => let (k, v) := kv in
                              encode_basestring_ascii k ++ key_separator
                              ++ iterencode (S level) v) d)
      ++ newline_indent level ++ lit "}"
  end.

End Iterencode.

(** json.dumps(obj, indent=2) *)
Definition dumps_indent2 (floatstr : str -> str) (obj : json) : str :=
  iterencode floatstr (Some (mul_str 32 2)) (lit ",") (lit ": ") 0 obj.

End Encoder.

(** ** The script *)

(** What a run does that can be seen from outside: lines printed on standard
    output and calls into the two decoding libraries. *)
Inductive event :=
| Print (line : str)
| Call_urlsafe_b64decode (arg : str)
| Call_json_loads (arg : bytes).

Definition trace := list event.

(** A computation appends to the trace and ends with a value or with an
    exception in flight. *)
Definition M (A : Type) : Type := trace -> result A * trace.

Definition ret {A} (a : A) : M A := fun t => (inr a, t).

Definition raise {A} (e : exn) : M A := fun t => (inl e, t).

Definition bind {A B} (m : M A) (k : A -> M B) : M B :=
  fun t => match m t with
           | (inr a, t') => k a t'
           | (inl e, t') => (inl e, t')
           end.

(** try: body except Exception as e: handler *)
Definition try_except {A} (body : M A) (handler : exn -> M A) : M A :=
  fun t => match body t with
           | (inr a, t') => (inr a, t')
           | (inl e, t') => handler e t'
           end.

Declare Scope py_scope.
Delimit Scope py_scope with py.
Notation "x <- m ;; k" := (bind m (fun x => k))
  (at level 100, m at next level, right associativity) : py_scope.
Notation "m ;;; k" := (bind m (fun _ => k))
  (at level 100, right associativity) : py_scope.

Definition print (line : str) : M unit := fun t => (inr tt, t ++ [Print line]).

Definition urlsafe_b64decode (s : str) : M bytes :=
  fun t => (Base64.urlsafe_b64decode s, t ++ [Call_urlsafe_b64decode s]).

Definition json_loads (b : bytes) : M Json.json :=
  fun t => (Json.loads b, t ++ [Call_json_loads b]).

(** None *)
Definition PyNone : Json.json := Json.JNull.

Open Scope py_scope.

(** decode_jwt_payload(token) *)
Definition decode_jwt_payload (token : str) : M Json.json :=
  try_except
    (let parts := split (ord ".") token in
     if negb (len parts =? 3) then
       print (lit "Invalid JWT format") ;;;
       ret PyNone
     else
       let payload := nth 1 parts [] in
       let padding := 4 - len payload mod 4 in
       let payload := if negb (padding =? 4)
                      then payload ++ mul_str (ord "=") padding
                      else payload in
       decoded <- urlsafe_b64decode payload ;;
       json_loads decoded)
    (fun e =>
       print (lit "Error decoding JWT: " ++ str_of_exn e) ;;;
       ret PyNone).

(** sys.stdin.read(): [stdin] is what the read gives, the whole input as
    text, or the exception it raises (a UnicodeDecodeError when the bytes on
    standard input are not text in the encoding of the stream). *)
Definition stdin_read (stdin : result str) : M str := fun t => (stdin, t).

(** The body of [if __name__ == "__main__"], on the argument vector and the
    outcome of reading standard input, which is read only when there is no
    argument, and outside any try.  [floatstr] is float.__repr__ as
    json.dumps uses it. *)
Definition main (floatstr : str -> str) (argv : list str)
           (stdin : result str) : M unit :=
  token <- (if 1 <? len argv then ret (nth 1 argv [])
            else (text <- stdin_read stdin ;; ret (strip text))) ;;
  payload <- decode_jwt_payload token ;;
  if Encoder.truthy payload
  then print (Encoder.dumps_indent2 floatstr payload)
  else ret tt.

Close Scope py_scope.

(** Running from an empty trace. *)
Definition run {A} (m : M A) : result A * trace := m [].

(** The lines a trace printed. *)
Definition printed (t : trace) : list str :=
  flat_map (fun ev => match ev with Print l => [l] | _ => [] end) t.

(** The text on standard output: every print ends its line. *)
Definition stdout (t : trace) : str :=
  flat_map (fun l => l ++ [10]) (printed t).

(** ** How a token is formed: base64url, UTF-8 and JSON serialization

    The issuing side as the specification words it: the payload object is
    serialized to JSON, encoded as UTF-8, and written in unpadded base64url
    between a header and a signature. *)

Module Issuer.
Import Json.

(** The base64url alphabet of RFC 4648, section 5. *)
Definition b64url_char (v : N) : N :=
  if v <? 26 then 65 + v
  else if v <? 52 then 97 + (v - 26)
  else if v <? 62 then 48 + (v - 52)
  else if v =? 62 then 45
  else 95.

(** Unpadded base64url of a byte string. *)
Fixpoint b64url_encode (bs : bytes) : str :=
  match bs with
  | a :: b :: c :: rest =>
      [b64url_char (a / 4); b64url_char (a mod 4 * 16 + b / 16);
       b64url_char (b mod 16 * 4 + c / 64); b64url_char (c mod 64)]
      ++ b64url_encode rest
  | [a; b] =>
      [b64url_char (a / 4); b64url_char (a mod 4 * 16 + b / 16);
       b64url_char (b mod 16 * 4)]
  | [a] => [b64url_char (a / 4); b64url_char (a mod 4 * 16)]
  | [] => []
  end.

Definition utf8_encode_char (c : N) : bytes :=
  if c <? 128 then [c]
  else if c <? 2048 then [192 + c / 64; 128 + c mod 64]
  else if c <? 65536
       then [224 + c / 4096; 128 + c / 64 mod 64; 128 + c mod 64]
       else [240 + c / 262144; 128 + c / 4096 mod 64;
             128 + c / 64 mod 64; 128 + c mod 64].

Definition utf8_encode (s : str) : bytes := flat_map utf8_encode_char s.

(** Compact JSON text, json.dumps(p, separators=(",", ":")); a float is
    written as the literal that stands for it. *)
Definition json_serialize (p : json) : str :=
  Encoder.iterencode (fun t => t) None (lit ",") (lit ":") 0 p.

Definition make_token (header : str) (p : json) (signature : str) : str :=
  header ++ [ord "."] ++ b64url_encode (utf8_encode (json_serialize p))
  ++ [ord "."] ++ signature.

(** Unicode scalar values: code points that are not surrogates. *)
Definition is_scalar (c : N) : bool :=
  (c <? 1114112) && negb (Codec.is_surrogate c).

Definition wf_str (s : str) : bool := forallb is_scalar s.

(** The text of a JSON number with a fraction or an exponent. *)
Definition wf_float (t : str) : bool :=
  match match_number t with
  | Some (JFloat t', []) => if list_eq_dec N.eq_dec t' t then true else false
  | _ => false
  end.

Fixpoint distinct (keys : list str) : bool :=
  match keys with
  | [] => true
  | k :: keys' =>
      negb (existsb (fun k' => if list_eq_dec N.eq_dec k k' then true else false)
                    keys')
      && distinct keys'
  end.

(** JSON values: strings are Unicode text, numbers are integers or number
    literals, the keys of an object are distinct. *)
Fixpoint wf_json (v : json) : bool :=
  match v with
  | JNull | JBool _ | JInt _ => true
  | JFloat t => wf_float t
  | JStr s => wf_str s
  | JList l => forallb wf_json l
  | JDict d =>
      forallb (fun kv : str * json => let (k, x) := kv in
                                      wf_str k && wf_json x) d
      && distinct (map fst d)
  end.

Definition is_object (v : json) : bool :=
  match v with
  | JDict _ => true
  | _ => false
  end.

(** Characters of the base64url alphabet. *)
Definition is_b64url_char (c : N) : bool :=
  ((65 <=? c) && (c <=? 90)) || ((97 <=? c) && (c <=? 122))
  || ((48 <=? c) && (c <=? 57)) || (c =? 45) || (c =? 95).

(** The number of dots in a token. *)
Definition dots (token : str) : nat := count_occ N.eq_dec token (ord ".").

End Issuer.

(** ** Padding as the specification states it *)

(** The number of '=' to append to a segment: 4 - r when r, the length
    modulo 4, is not 0, and none when it is. *)
Definition pad_count (s : str) : N :=
  let r := len s mod 4 in
  if r =? 0 then 0 else 4 - r.

Definition padded (s : str) : str := s ++ mul_str (ord "=") (pad_count s).

(** Linear arithmetic that also knows quotients and remainders. *)
Ltac dlia := zify; Z.to_euclidean_division_equations; lia.

(** ** The standard alphabet *)

(** The same text in the alphabet of plain base64: '+' for '-' and '/' for
    '_'. *)
Definition to_standard (c : N) : N :=
  if c =? 45 then 43 else if c =? 95 then 47 else c.

(** The '=' characters RFC 4648 puts after the encoded text, and that the
    unpadded form leaves out: none after a multiple of three bytes, two after
    one byte more, one after two bytes more. *)
Fixpoint b64_padding (bs : bytes) : str :=
  match bs with
  | _ :: _ :: _ :: rest => b64_padding rest
  | [_; _] => [61]
  | [_] => [61; 61]
  | [] => []
  end.

(** ** What may follow a value in JSON text *)

(** The text after a number does not continue it. *)
Definition ends_number (rest : str) : bool :=
  match rest with
  | [] => true
  | c :: _ =>
      negb (Json.isdigit c || (c =? 46) || (c =? 101) || (c =? 69)
            || (c =? 43) || (c =? 45))
  end.

(** The text after a value starts with a comma, a closing bracket or brace,
    or white space, or is empty. *)
Definition delimited (rest : str) : bool :=
  match rest with
  | [] => true
  | c :: _ => (c =? 44) || (c =? 93) || (c =? 125) || Json.is_ws c
  end.

(** ** Values as they are written *)

(** The value with every float replaced by the text the encoder writes for
    it. *)
Fixpoint map_floats (f : str -> str) (v : Json.json) : Json.json :=
  match v with
  | Json.JFloat t => Json.JFloat (f t)
  | Json.JList l => Json.JList (map (map_floats f) l)
  | Json.JDict d =>
      Json.JDict (map (fun kv : str * Json.json =>
                         let (k, x) := kv in (k, map_floats f x)) d)
  | _ => v
  end.

(** The text starts a JSON value: its first character is not white space
    and closes no array or object. *)
Definition starts_value (s : str) : bool :=
  match s with
  | [] => false
  | c :: _ => negb (Json.is_ws c || (c =? 93) || (c =? 125))
  end.

(** An ASCII character other than NUL. *)
Definition plain (c : N) : bool := (0 <? c) && (c <? 128).

(** ** The decode operation as the specification words it *)

(** The two kinds of error of the specification. *)
Inductive decode_error :=
| MalformedToken
| DecodeFailure (description : str).

(** decode(token), steps 1 to 7 of the algorithm: split the token on the
    dot and require three segments; take the second; pad it to a multiple of
    four; decode it in the URL-safe base64 alphabet; read the bytes as JSON.
    An error of the last three steps is a DecodeFailure that carries the
    description of the underlying error. *)
Definition spec_decode (token : str) : decode_error + Json.json :=
  match split (ord ".") token with
  | [_; payload; _] =>
      match Base64.urlsafe_b64decode (padded payload) with
      | inl e => inl (DecodeFailure (exn_msg e))
      | inr data =>
          match Json.loads data with
          | inl e => inl (DecodeFailure (exn_msg e))
          | inr v => inr v
          end
      end
  | _ => inl MalformedToken
  end.

(** What the caller gets for an outcome: the value, or no result. *)
Definition spec_result (o : decode_error + Json.json) : Json.json :=
  match o with
  | inr v => v
  | inl _ => PyNone
  end.

(** What is written to standard output for an outcome: nothing by the
    decoder on success, one diagnostic for each kind of error. *)
Definition spec_output (o : decode_error + Json.json) : list str :=
  match o with
  | inr _ => []
  | inl MalformedToken => [lit "Invalid JWT format"]
  | inl (DecodeFailure d) => [lit "Error decoding JWT: " ++ d]
  end.

(** ** The limits of the interpreter *)

(** int() refuses a text of more than 4300 digits, and the recursion limit,
    1000 by default, bounds how deep the JSON scanner and encoder nest.  The
    embedding has neither limit.  A value stays clear of both when its
    integers have at most 4300 digits and its lists and dicts are nested at
    most [max_nesting] deep, far below what the recursion limit leaves to
    json once the frames of the script are counted. *)
Definition max_str_digits : nat := 4300.
Definition max_nesting : nat := 100.

Fixpoint nesting (v : Json.json) : nat :=
  match v with
  | Json.JList l => S (list_max (map nesting l))
  | Json.JDict d =>
      S (list_max (map (fun kv : str * Json.json =>
                          let (_, x) := kv in nesting x) d))
  | _ => 0%nat
  end.

Fixpoint small_ints (v : Json.json) : bool :=
  match v with
  | Json.JInt z => (length (str_of_N (Z.abs_N z)) <=? max_str_digits)%nat
  | Json.JList l => forallb small_ints l
  | Json.JDict d =>
      forallb (fun kv : str * Json.json => let (_, x) := kv in small_ints x) d
  | _ => true
  end.

Definition within_limits (v : Json.json) : bool :=
  small_ints v && (nesting v <=? max_nesting)%nat.

(** * Properties *)

(** ** Splitting *)

Lemma split_not_nil sep s : split sep s <> [].
Proof.
  destruct s as [|c s]; simpl; [discriminate|].
  destruct (c =? sep); [discriminate|].
  destruct (split sep s); discriminate.
Qed.

(** A token has one segment more than it has separators. *)
Lemma split_length sep s :
  length (split sep s) = S (count_occ N.eq_dec s sep).
Proof.
  induction s as [|c s IH]; simpl; [reflexivity|].
  destruct (N.eqb_spec c sep) as [->|Hne].
  - destruct (N.eq_dec sep sep); [|congruence]. simpl. now rewrite IH.
  - destruct (N.eq_dec c sep); [congruence|].
    destruct (split sep s) eqn:E; simpl in *; [discriminate|assumption].
Qed.

Lemma split_no_sep sep s : ~ In sep s -> split sep s = [s].
Proof.
  induction s as [|c s IH]; simpl; intros H; [reflexivity|].
  destruct (N.eqb_spec c sep) as [->|Hne]; [tauto|].
  rewrite IH by tauto. reflexivity.
Qed.

Lemma split_app sep a b :
  ~ In sep a -> split sep (a ++ sep :: b) = a :: split sep b.
Proof.
  induction a as [|c a IH]; simpl; intros H.
  - now rewrite N.eqb_refl.
  - destruct (N.eqb_spec c sep) as [->|Hne]; [tauto|].
    rewrite IH by tauto. reflexivity.
Qed.

Lemma split_three sep h s g :
  ~ In sep h -> ~ In sep s -> ~ In sep g ->
  split sep (h ++ sep :: s ++ sep :: g) = [h; s; g].
Proof.
  intros Hh Hs Hg.
  rewrite split_app by assumption. rewrite split_app by assumption.
  now rewrite split_no_sep.
Qed.

Lemma len_three {A} (l : list A) :
  (len l =? 3) = true -> exists a b c, l = [a; b; c].
Proof.
  unfold len. intros H. apply N.eqb_eq in H.
  destruct l as [|a [|b [|c [|d l]]]]; simpl in H; try lia.
  now exists a, b, c.
Qed.

(** ** The padding step *)

Lemma pad_count_cases s :
  (len s mod 4 = 0 /\ pad_count s = 0)
  \/ (len s mod 4 = 1 /\ pad_count s = 3)
  \/ (len s mod 4 = 2 /\ pad_count s = 2)
  \/ (len s mod 4 = 3 /\ pad_count s = 1).
Proof.
  unfold pad_count.
  destruct (N.eqb_spec (len s mod 4) 0) as [E|E]; [now left|].
  right.
  assert (C : len s mod 4 = 1 \/ len s mod 4 = 2 \/ len s mod 4 = 3) by dlia.
  destruct C as [C|[C|C]]; rewrite C; simpl; tauto.
Qed.

(** What the script computes is the padding of the specification. *)
Lemma padding_code s :
  (if negb (4 - len s mod 4 =? 4)
   then s ++ mul_str (ord "=") (4 - len s mod 4)
   else s) = padded s.
Proof.
  unfold padded, pad_count.
  destruct (N.eqb_spec (len s mod 4) 0) as [E|E].
  - rewrite E. simpl. now rewrite app_nil_r.
  - destruct (N.eqb_spec (4 - len s mod 4) 4) as [E'|E']; [dlia|reflexivity].
Qed.

Lemma len_app {A} (a b : list A) : len (a ++ b) = len a + len b.
Proof. unfold len. rewrite length_app. lia. Qed.

Lemma len_mul_str c n : len (mul_str c n) = n.
Proof. unfold len, mul_str. rewrite repeat_length. lia. Qed.

Lemma padded_length s : len (padded s) mod 4 = 0.
Proof.
  unfold padded. rewrite len_app, len_mul_str.
  destruct (pad_count_cases s) as [[R P]|[[R P]|[[R P]|[R P]]]];
    rewrite P; dlia.
Qed.

(** ** One run of the decoder *)

(** A token that does not have three segments. *)
Lemma decode_malformed token t :
  (len (split (ord ".") token) =? 3) = false ->
  decode_jwt_payload token t
  = (inr PyNone, t ++ [Print (lit "Invalid JWT format")]).
Proof.
  intros H. unfold decode_jwt_payload, try_except, bind, print, ret.
  rewrite H. reflexivity.
Qed.

(** A token with three segments: the middle one is padded, decoded and
    parsed; whatever is raised on the way is printed. *)
Lemma decode_three token h s g t :
  split (ord ".") token = [h; s; g] ->
  decode_jwt_payload token t =
  match Base64.urlsafe_b64decode (padded s) with
  | inl e =>
      (inr PyNone,
       t ++ [Call_urlsafe_b64decode (padded s);
             Print (lit "Error decoding JWT: " ++ str_of_exn e)])
  | inr decoded =>
      match Json.loads decoded with
      | inl e =>
          (inr PyNone,
           t ++ [Call_urlsafe_b64decode (padded s); Call_json_loads decoded;
                 Print (lit "Error decoding JWT: " ++ str_of_exn e)])
      | inr v =>
          (inr v,
           t ++ [Call_urlsafe_b64decode (padded s); Call_json_loads decoded])
      end
  end.
Proof.
  intros H.
  unfold decode_jwt_payload, try_except, bind, print, ret,
    urlsafe_b64decode, json_loads.
  rewrite H. cbn [len length N.of_nat Pos.of_succ_nat Pos.succ N.eqb Pos.eqb negb nth].
  rewrite padding_code.
  destruct (Base64.urlsafe_b64decode (padded s)) as [e|decoded].
  - now rewrite <- app_assoc.
  - destruct (Json.loads decoded) as [e|v]; now rewrite <- !app_assoc.
Qed.

(** The decoder always returns, and only appends to the trace. *)
Lemma decode_frame token :
  exists v out, forall t',
    decode_jwt_payload token t' = (inr v, t' ++ out).
Proof.
  destruct (len (split (ord ".") token) =? 3) eqn:E.
  - destruct (len_three _ E) as (h & s & g & Hs).
    destruct (Base64.urlsafe_b64decode (padded s)) as [e|decoded] eqn:B.
    + eexists _, _. intros t'. rewrite (decode_three _ _ _ _ _ Hs), B.
      reflexivity.
    + destruct (Json.loads decoded) as [e|v] eqn:J.
      * eexists _, _. intros t'. rewrite (decode_three _ _ _ _ _ Hs), B, J.
        reflexivity.
      * eexists _, _. intros t'. rewrite (decode_three _ _ _ _ _ Hs), B, J.
        reflexivity.
  - eexists _, _. intros t'. now rewrite decode_malformed.
Qed.

(** ** The entry point *)

(** The token the entry point decodes. *)
Lemma main_token floatstr (argv : list str) (stdin : str) t :
  main floatstr argv (inr stdin) t
  = bind (decode_jwt_payload
            (if 1 <? len argv then nth 1 argv ([] : str) else strip stdin))
         (fun payload =>
            if Encoder.truthy payload
            then print (Encoder.dumps_indent2 floatstr payload)
            else ret tt) t.
Proof.
  unfold main, bind, stdin_read, ret. destruct (1 <? len argv); reflexivity.
Qed.

Lemma main_run floatstr (argv : list str) (stdin : str) t v t' :
  decode_jwt_payload
    (if 1 <? len argv then nth 1 argv ([] : str) else strip stdin) t
  = (inr v, t') ->
  main floatstr argv (inr stdin) t
  = (inr tt,
     if Encoder.truthy v
     then t' ++ [Print (Encoder.dumps_indent2 floatstr v)]
     else t').
Proof.
  intros H. rewrite main_token. unfold bind. rewrite H.
  destruct (Encoder.truthy v); reflexivity.
Qed.

(** With an argument, standard input is not read. *)
Lemma main_argument floatstr prog token rest (stdin : result str) :
  main floatstr (prog :: token :: rest) stdin
  = main floatstr [prog; token] (inr ([] : str)).
Proof.
  unfold main.
  replace (1 <? len (prog :: token :: rest)) with true; [reflexivity|].
  symmetry. apply N.ltb_lt. unfold len. simpl length. lia.
Qed.

(** Without one, an exception of the read leaves the entry point. *)
Lemma main_unreadable floatstr (argv : list str) e t :
  (1 <? len argv) = false ->
  main floatstr argv (inl e) t = (inl e, t).
Proof.
  intros A. unfold main, bind, stdin_read. rewrite A. reflexivity.
Qed.

(** ** Stripping *)

Lemma lstrip_all_space s : forallb isspace s = true -> lstrip s = [].
Proof.
  induction s as [|c s IH]; simpl; [reflexivity|].
  destruct (isspace c); simpl; [assumption|discriminate].
Qed.

Lemma lstrip_app a b :
  lstrip (a ++ b) = if forallb isspace a then lstrip b else lstrip a ++ b.
Proof.
  induction a as [|c a IH]; simpl; [reflexivity|].
  destruct (isspace c); simpl; [assumption|reflexivity].
Qed.

(** A newline at the end of the input is stripped with the rest. *)
Lemma strip_newline s : strip (s ++ [10]) = strip s.
Proof.
  unfold strip, rstrip. rewrite lstrip_app.
  destruct (forallb isspace s) eqn:E.
  - rewrite (lstrip_all_space s E). reflexivity.
  - rewrite rev_app_distr. reflexivity.
Qed.

(** ** Truth values *)

Lemma len_zero {A} (l : list A) : (len l =? 0) = true <-> l = [].
Proof.
  unfold len. destruct l; simpl; split; intros H;
    try reflexivity; try discriminate.
Qed.

Lemma falsy_values v :
  Encoder.truthy v = false <->
  v = Json.JNull \/ v = Json.JBool false \/ v = Json.JInt 0
  \/ (exists t, v = Json.JFloat t /\ Encoder.float_is_zero t = true)
  \/ v = Json.JStr [] \/ v = Json.JList [] \/ v = Json.JDict [].
Proof.
  split.
  - destruct v as [|b|z|t|s|l|d]; simpl; intros H.
    + tauto.
    + subst. tauto.
    + apply negb_false_iff, Z.eqb_eq in H. subst. tauto.
    + apply negb_false_iff in H. right; right; right; left. now exists t.
    + apply negb_false_iff, len_zero in H. subst. tauto.
    + apply negb_false_iff, len_zero in H. subst. tauto.
    + apply negb_false_iff, len_zero in H. subst. tauto.
  - intros [->|[->|[->|[(t & -> & H)|[->|[->| ->]]]]]]; simpl;
      try reflexivity.
    now rewrite H.
Qed.

(** ** The structural check *)

(** C2: a token that does not split on '.' into exactly three segments makes
    the decoder print the line 'Invalid JWT format' and return None; the run
    consists of that one print, so neither base64 decoding nor JSON parsing
    is attempted.  The number of segments is the number of dots plus one. *)
Theorem malformed_token_rejected (token : str) (t : trace) :
  length (split (ord ".") token) <> 3%nat ->
  decode_jwt_payload token t
  = (inr PyNone, t ++ [Print (lit "Invalid JWT format")])
  /\ Issuer.dots token <> 2%nat.
Proof.
  intros H. split.
  - apply decode_malformed. apply N.eqb_neq. unfold len. lia.
  - unfold Issuer.dots. rewrite split_length in H. lia.
Qed.

Lemma malformed_token_rejected_witness :
  length (split (ord ".") (lit "abc.def")) <> 3%nat
  /\ decode_jwt_payload (lit "abc.def") []
     = (inr PyNone, [Print (lit "Invalid JWT format")]).
Proof.
  assert (H : length (split (ord ".") (lit "abc.def")) <> 3%nat)
    by (vm_compute; lia).
  split; [exact H|].
  exact (proj1 (malformed_token_rejected (lit "abc.def") [] H)).
Defined.

(** ** The padding step *)

(** C5: for a payload segment s with r = length(s) mod 4, the string handed
    to the base64 decoder is s followed by exactly 4 - r '=' characters when
    r is not 0, and s itself when r is 0; its length is a multiple of 4. *)
Theorem padding_step (token h s g : str) (t : trace) :
  split (ord ".") token = [h; s; g] ->
  let r := len s mod 4 in
  let k := if r =? 0 then 0 else 4 - r in
  (exists res out,
      decode_jwt_payload token t
      = (res, t ++ Call_urlsafe_b64decode (s ++ mul_str (ord "=") k) :: out))
  /\ (r = 0 -> s ++ mul_str (ord "=") k = s)
  /\ (r <> 0 -> k = 4 - r)
  /\ len (s ++ mul_str (ord "=") k) mod 4 = 0.
Proof.
  intros H r k.
  assert (P : s ++ mul_str (ord "=") k = padded s) by reflexivity.
  split; [|split; [|split]].
  - rewrite P, (decode_three _ _ _ _ _ H).
    destruct (Base64.urlsafe_b64decode (padded s)) as [e|decoded].
    + eexists _, _. reflexivity.
    + destruct (Json.loads decoded); eexists _, _; reflexivity.
  - intros R. subst k. rewrite R. simpl. apply app_nil_r.
  - intros R. subst k. destruct (N.eqb_spec r 0); [contradiction|reflexivity].
  - rewrite P. apply padded_length.
Qed.

Lemma padding_step_witness :
  exists res out,
    decode_jwt_payload (lit "a.dGVzdA.b") []
    = (res, Call_urlsafe_b64decode (lit "dGVzdA==") :: out).
Proof.
  exact (proj1 (padding_step (lit "a.dGVzdA.b") (lit "a") (lit "dGVzdA")
                             (lit "b") [] eq_refl)).
Defined.

(** ** Failures inside the decoder *)

(** C4: for a token with three segments, an error raised by the base64
    decoder or by json.loads (which covers reading the bytes as text and
    parsing them) is caught: the decoder prints 'Error decoding JWT: '
    followed by the message of the error, and returns None.  No exception
    leaves the decoder. *)
Theorem decode_errors_caught (token h s g : str) (t : trace) :
  split (ord ".") token = [h; s; g] ->
  (forall e,
      Base64.urlsafe_b64decode (padded s) = inl e ->
      decode_jwt_payload token t
      = (inr PyNone,
         t ++ [Call_urlsafe_b64decode (padded s);
               Print (lit "Error decoding JWT: " ++ exn_msg e)]))
  /\ (forall decoded e,
         Base64.urlsafe_b64decode (padded s) = inr decoded ->
         Json.loads decoded = inl e ->
         decode_jwt_payload token t
         = (inr PyNone,
            t ++ [Call_urlsafe_b64decode (padded s); Call_json_loads decoded;
                  Print (lit "Error decoding JWT: " ++ exn_msg e)]))
  /\ (exists v out, decode_jwt_payload token t = (inr v, t ++ out)).
Proof.
  intros H. rewrite (decode_three _ _ _ _ _ H).
  split; [|split].
  - intros e E. rewrite E. reflexivity.
  - intros decoded e E J. rewrite E, J. reflexivity.
  - destruct (Base64.urlsafe_b64decode (padded s)) as [e|decoded].
    + eexists _, _. reflexivity.
    + destruct (Json.loads decoded); eexists _, _; reflexivity.
Qed.

Lemma decode_errors_caught_witness :
  decode_jwt_payload (lit "h.abcde.s") []
  = (inr PyNone,
     [Call_urlsafe_b64decode (lit "abcde===");
      Print (lit "Error decoding JWT: Invalid base64-encoded string: number of data characters (5) cannot be 1 more than a multiple of 4")])
  /\ decode_jwt_payload (lit "a.dGVzdA.b") []
     = (inr PyNone,
        [Call_urlsafe_b64decode (lit "dGVzdA=="); Call_json_loads (lit "test");
         Print (lit "Error decoding JWT: Expecting value: line 1 column 1 (char 0)")]).
Proof.
  split.
  - exact (proj1 (decode_errors_caught (lit "h.abcde.s") (lit "h")
                    (lit "abcde") (lit "s") [] eq_refl) _ eq_refl).
  - exact (proj1 (proj2 (decode_errors_caught (lit "a.dGVzdA.b") (lit "a")
                    (lit "dGVzdA") (lit "b") [] eq_refl)) _ _ eq_refl eq_refl).
Defined.

(** ** Determinism *)

(** The outcome the specification's algorithm gives is what the decoder
    returns and prints, from any starting point. *)
Lemma decode_refines_spec token t :
  exists out,
    decode_jwt_payload token t
    = (inr (spec_result (spec_decode token)), t ++ out)
    /\ printed out = spec_output (spec_decode token).
Proof.
  unfold spec_decode.
  destruct (len (split (ord ".") token) =? 3) eqn:E.
  - destruct (len_three _ E) as (h & s & g & Hs).
    rewrite (decode_three _ _ _ _ t Hs), Hs.
    destruct (Base64.urlsafe_b64decode (padded s)) as [e|decoded].
    + eexists. split; reflexivity.
    + destruct (Json.loads decoded) as [e|v]; eexists; split; reflexivity.
  - rewrite (decode_malformed _ t E).
    exists [Print (lit "Invalid JWT format")].
    destruct (split (ord ".") token) as [|a [|b [|c [|d l]]]];
      try (split; reflexivity).
    discriminate E.
Qed.

(** C7: the decoder is a function of the token alone, the function the
    algorithm of the specification describes.  From any starting point it
    returns the result of [spec_decode] on the token and prints the
    diagnostic of that outcome, or nothing on success; two invocations in a
    row give the same value twice and the same output twice. *)
Theorem decode_deterministic (token : str) :
  exists out,
    (forall t,
        decode_jwt_payload token t
        = (inr (spec_result (spec_decode token)), t ++ out))
    /\ printed out = spec_output (spec_decode token)
    /\ run (bind (decode_jwt_payload token) (fun v1 =>
             bind (decode_jwt_payload token) (fun v2 => ret (v1, v2))))
       = (inr (spec_result (spec_decode token),
               spec_result (spec_decode token)), out ++ out)
    /\ (forall t1 t2,
           printed (snd (decode_jwt_payload token t1))
           = printed t1 ++ spec_output (spec_decode token)
           /\ fst (decode_jwt_payload token t1)
              = fst (decode_jwt_payload token t2)).
Proof.
  destruct (decode_frame token) as (v & out & F).
  destruct (decode_refines_spec token []) as (out' & R & P).
  rewrite (F []) in R. injection R as -> ->.
  exists out'. split; [exact F|]. split; [exact P|]. split.
  - unfold run, bind, ret. rewrite (F []). simpl. rewrite (F out').
    reflexivity.
  - intros t1 t2. rewrite (F t1), (F t2). simpl. split; [|reflexivity].
    unfold printed in *. now rewrite flat_map_app, P.
Qed.

(** ** Two dots and an empty payload *)

(** C10: a token with exactly two dots has three segments, empty or not, and
    passes the structural check.  With an empty payload segment the base64
    decoder is given the empty string and returns no bytes, json.loads
    fails on them, and the line printed is the decode failure, not
    'Invalid JWT format'. *)
Theorem empty_payload_is_decode_failure (h g : str) (t : trace) :
  Issuer.dots h = 0%nat -> Issuer.dots g = 0%nat ->
  split (ord ".") (h ++ lit ".." ++ g) = [h; []; g]
  /\ Issuer.dots (h ++ lit ".." ++ g) = 2%nat
  /\ decode_jwt_payload (h ++ lit ".." ++ g) t
     = (inr PyNone,
        t ++ [Call_urlsafe_b64decode []; Call_json_loads [];
              Print (lit "Error decoding JWT: Expecting value: line 1 column 1 (char 0)")]).
Proof.
  intros Hh Hg.
  assert (S3 : split (ord ".") (h ++ lit ".." ++ g) = [h; []; g]).
  { apply (split_three (ord ".") h [] g).
    - now apply count_occ_not_In in Hh.
    - intros [].
    - now apply count_occ_not_In in Hg. }
  split; [exact S3|]. split.
  - pose proof (split_length (ord ".") (h ++ lit ".." ++ g)) as L.
    rewrite S3 in L. cbn [length] in L. unfold Issuer.dots. lia.
  - rewrite (decode_three _ _ _ _ _ S3). reflexivity.
Qed.

Lemma empty_payload_is_decode_failure_witness :
  decode_jwt_payload (lit "a..b") []
  = (inr PyNone,
     [Call_urlsafe_b64decode []; Call_json_loads [];
      Print (lit "Error decoding JWT: Expecting value: line 1 column 1 (char 0)")]).
Proof.
  exact (proj2 (proj2 (empty_payload_is_decode_failure (lit "a") (lit "b") []
                         eq_refl eq_refl))).
Defined.

(** ** Reading the token from standard input *)

(** C8: without a command-line argument the entry point decodes the text
    read from standard input with the white space around it removed: its run
    is the run of the decoder on that string, followed by the print of the
    payload when the decoder returned a true value.  This is exactly the
    run with that string as the argument; a newline after the input changes
    nothing, so a token followed by a newline is decoded as the token. *)
Theorem stdin_token_stripped (floatstr : str -> str) (argv : list str)
        (prog stdin : str) (unread : result str) (t : trace) :
  (length argv <= 1)%nat ->
  (exists v t',
      decode_jwt_payload (strip stdin) t = (inr v, t')
      /\ main floatstr argv (inr stdin) t
         = (inr tt,
            if Encoder.truthy v
            then t' ++ [Print (Encoder.dumps_indent2 floatstr v)]
            else t'))
  /\ main floatstr argv (inr stdin) t
     = main floatstr [prog; strip stdin] unread t
  /\ main floatstr argv (inr (stdin ++ [10])) t
     = main floatstr argv (inr stdin) t
  /\ (strip stdin = stdin ->
      main floatstr argv (inr (stdin ++ [10])) t
      = main floatstr [prog; stdin] unread t).
Proof.
  intros L.
  assert (A : (1 <? len argv) = false).
  { apply N.ltb_ge. unfold len. lia. }
  assert (E : forall input,
             main floatstr argv (inr input) t
             = main floatstr [prog; strip input] unread t).
  { intros input. rewrite (main_argument floatstr prog (strip input) [] unread).
    rewrite !main_token, A. reflexivity. }
  split; [|split; [apply E|split]].
  - destruct (decode_frame (strip stdin)) as (v & out & F).
    exists v, (t ++ out). split; [apply F|].
    apply main_run. rewrite A. apply F.
  - rewrite !E, strip_newline. reflexivity.
  - intros S. rewrite E, strip_newline, S. reflexivity.
Qed.

Lemma stdin_token_stripped_witness :
  (exists v t',
      decode_jwt_payload
        (strip (lit "eyJhbGciOiJIUzI1NiJ9.eyJzdWIiOiIxMjM0NTY3ODkwIn0.dummy"
                ++ [10])) []
      = (inr v, t')
      /\ main (fun x => x) [lit "decode-jwt.py"]
           (inr (lit "eyJhbGciOiJIUzI1NiJ9.eyJzdWIiOiIxMjM0NTY3ODkwIn0.dummy"
                 ++ [10])) []
         = (inr tt,
            if Encoder.truthy v
            then t' ++ [Print (Encoder.dumps_indent2 (fun x => x) v)]
            else t'))
  /\ run (main (fun x => x) [lit "decode-jwt.py"]
            (inr (lit "eyJhbGciOiJIUzI1NiJ9.eyJzdWIiOiIxMjM0NTY3ODkwIn0.dummy"
                  ++ [10])))
     = run (main (fun x => x)
              [lit "decode-jwt.py";
               lit "eyJhbGciOiJIUzI1NiJ9.eyJzdWIiOiIxMjM0NTY3ODkwIn0.dummy"]
              (inr [])).
Proof.
  split.
  - refine (proj1 (stdin_token_stripped (fun x => x) [lit "decode-jwt.py"]
              (lit "decode-jwt.py")
              (lit "eyJhbGciOiJIUzI1NiJ9.eyJzdWIiOiIxMjM0NTY3ODkwIn0.dummy"
               ++ [10])
              (inr []) [] _)).
    simpl. lia.
  - refine (proj2 (proj2 (proj2 (stdin_token_stripped (fun x => x)
              [lit "decode-jwt.py"] (lit "decode-jwt.py")
              (lit "eyJhbGciOiJIUzI1NiJ9.eyJzdWIiOiIxMjM0NTY3ODkwIn0.dummy")
              (inr []) [] _))) _).
    + simpl. lia.
    + vm_compute. reflexivity.
Defined.

(** ** What the entry point prints *)

(** C9: the entry point prints the decoded payload exactly when the decoder
    returns a true value.  When the payload decodes to a false value (null,
    false, 0, a zero float, the empty string, list or dict) the decoder
    returns that value and the entry point prints nothing, neither the value
    nor a diagnostic. *)
Theorem prints_iff_truthy (floatstr : str -> str) (prog token : str)
        (stdin : result str) (t : trace) :
  (exists v t',
      decode_jwt_payload token t = (inr v, t')
      /\ main floatstr [prog; token] stdin t
         = (inr tt,
            if Encoder.truthy v
            then t' ++ [Print (Encoder.dumps_indent2 floatstr v)]
            else t'))
  /\ (forall h s g decoded v,
         split (ord ".") token = [h; s; g] ->
         Base64.urlsafe_b64decode (padded s) = inr decoded ->
         Json.loads decoded = inr v ->
         Encoder.truthy v = false ->
         decode_jwt_payload token t
         = (inr v,
            t ++ [Call_urlsafe_b64decode (padded s); Call_json_loads decoded])
         /\ main floatstr [prog; token] stdin t
            = (inr tt,
               t ++ [Call_urlsafe_b64decode (padded s);
                     Call_json_loads decoded])
         /\ printed (snd (main floatstr [prog; token] stdin t)) = printed t)
  /\ (forall v,
         Encoder.truthy v = false <->
         v = Json.JNull \/ v = Json.JBool false \/ v = Json.JInt 0
         \/ (exists x, v = Json.JFloat x /\ Encoder.float_is_zero x = true)
         \/ v = Json.JStr [] \/ v = Json.JList [] \/ v = Json.JDict []).
Proof.
  split; [|split].
  - destruct (decode_frame token) as (v & out & F).
    exists v, (t ++ out). split; [apply F|].
    rewrite (main_argument floatstr prog token [] stdin).
    apply main_run. apply F.
  - intros h s g decoded v S B J T.
    assert (D : decode_jwt_payload token t
                = (inr v, t ++ [Call_urlsafe_b64decode (padded s);
                                Call_json_loads decoded])).
    { rewrite (decode_three _ _ _ _ _ S), B, J. reflexivity. }
    assert (R : main floatstr [prog; token] stdin t
                = (inr tt, t ++ [Call_urlsafe_b64decode (padded s);
                                 Call_json_loads decoded])).
    { rewrite (main_argument floatstr prog token [] stdin).
      rewrite (main_run floatstr [prog; token] [] t v _ D), T.
      reflexivity. }
    split; [exact D|]. split; [exact R|].
    rewrite R. simpl. unfold printed. rewrite flat_map_app. simpl.
    apply app_nil_r.
  - apply falsy_values.
Qed.

Lemma prints_iff_truthy_witness :
  decode_jwt_payload (lit "a.MA.b") []
  = (inr (Json.JInt 0),
     [Call_urlsafe_b64decode (lit "MA=="); Call_json_loads (lit "0")])
  /\ main (fun x => x) [lit "decode-jwt.py"; lit "a.MA.b"] (inr []) []
     = (inr tt,
        [Call_urlsafe_b64decode (lit "MA=="); Call_json_loads (lit "0")]).
Proof.
  destruct (proj1 (proj2 (prints_iff_truthy (fun x => x) (lit "decode-jwt.py")
                            (lit "a.MA.b") (inr []) []))
              (lit "a") (lit "MA") (lit "b") (lit "0") (Json.JInt 0)
              eq_refl eq_refl eq_refl eq_refl) as (D & R & _).
  split; [exact D|exact R].
Defined.

(** C1 (as the code has it): on the token a.e30.b the payload decodes to the
    empty object, the decoder returns it, and the entry point prints
    nothing: standard output stays empty, with neither the JSON text "{}"
    nor a diagnostic line. *)
Theorem empty_object_payload_prints_nothing (floatstr : str -> str)
        (stdin : result str) :
  run (decode_jwt_payload (lit "a.e30.b"))
  = (inr (Json.JDict []),
     [Call_urlsafe_b64decode (lit "e30="); Call_json_loads (lit "{}")])
  /\ run (main floatstr [lit "decode-jwt.py"; lit "a.e30.b"] stdin)
     = (inr tt,
        [Call_urlsafe_b64decode (lit "e30="); Call_json_loads (lit "{}")])
  /\ stdout (snd (run (main floatstr [lit "decode-jwt.py"; lit "a.e30.b"]
                           stdin))) = [].
Proof.
  assert (D : run (decode_jwt_payload (lit "a.e30.b"))
              = (inr (Json.JDict []),
                 [Call_urlsafe_b64decode (lit "e30=");
                  Call_json_loads (lit "{}")]))
    by (vm_compute; reflexivity).
  assert (R : run (main floatstr [lit "decode-jwt.py"; lit "a.e30.b"] stdin)
              = (inr tt,
                 [Call_urlsafe_b64decode (lit "e30=");
                  Call_json_loads (lit "{}")])).
  { unfold run.
    rewrite (main_argument floatstr (lit "decode-jwt.py") (lit "a.e30.b") []
                           stdin).
    rewrite (main_run floatstr [lit "decode-jwt.py"; lit "a.e30.b"] [] []
                      (Json.JDict []) _ D).
    reflexivity. }
  split; [exact D|]. split; [exact R|].
  rewrite R. reflexivity.
Qed.

(** ** Base64: characters of the alphabet *)

Ltac cases_N :=
  repeat match goal with
         | |- context [N.leb ?a ?b] => destruct (N.leb_spec a b)
         | |- context [N.ltb ?a ?b] => destruct (N.ltb_spec a b)
         | |- context [N.eqb ?a ?b] => destruct (N.eqb_spec a b)
         | H : context [N.leb ?a ?b] |- _ => destruct (N.leb_spec a b)
         | H : context [N.ltb ?a ?b] |- _ => destruct (N.ltb_spec a b)
         | H : context [N.eqb ?a ?b] |- _ => destruct (N.eqb_spec a b)
         end.

Lemma len_cons {A} (x : A) (l : list A) : len (x :: l) = len l + 1.
Proof. unfold len. simpl length. lia. Qed.

(** A property of numbers checked on every number below a bound. *)
Lemma forall_below (P : N -> bool) (n : nat) :
  forallb P (map N.of_nat (seq 0 n)) = true ->
  forall c, c < N.of_nat n -> P c = true.
Proof.
  intros H c Hc. rewrite forallb_forall in H. apply H.
  apply in_map_iff. exists (N.to_nat c). split; [lia|].
  apply in_seq. lia.
Qed.

Lemma b64url_char_below c : Issuer.is_b64url_char c = true -> c < 128.
Proof.
  unfold Issuer.is_b64url_char.
  rewrite !orb_true_iff, !andb_true_iff, !N.leb_le, !N.eqb_eq. lia.
Qed.

Lemma b64url_char_data c :
  Issuer.is_b64url_char c = true ->
  (Base64.urlsafe_translate c =? Base64.BASE64_PAD) = false
  /\ (64 <=? Base64.table_a2b_base64 (Base64.urlsafe_translate c)) = false
  /\ (c <? 128) = true.
Proof.
  intros H.
  pose proof (forall_below
    (fun c => implb (Issuer.is_b64url_char c)
       (negb (Base64.urlsafe_translate c =? Base64.BASE64_PAD)
        && negb (64 <=? Base64.table_a2b_base64 (Base64.urlsafe_translate c))
        && (c <? 128)))
    128 ltac:(vm_compute; reflexivity) c (b64url_char_below c H)) as F.
  cbv beta in F. rewrite H in F. simpl in F.
  apply andb_true_iff in F as [F F3]. apply andb_true_iff in F as [F1 F2].
  apply negb_true_iff in F1, F2. auto.
Qed.

Lemma emit_error b e : Base64.emit b (inl e) = inl e.
Proof. reflexivity. Qed.

Lemma a2b_loop_padding_only lc p n :
  Base64.a2b_loop [61; 61; 61] 1 lc p n = inl (Base64.error_one_more n).
Proof. reflexivity. Qed.

Lemma a2b_loop_data c rest qp lc p n :
  (c =? Base64.BASE64_PAD) = false ->
  (64 <=? Base64.table_a2b_base64 c) = false ->
  Base64.a2b_loop (c :: rest) qp lc p n =
  let this_ch := Base64.table_a2b_base64 c in
  if qp =? 0 then Base64.a2b_loop rest 1 this_ch 0 n
  else if qp =? 1 then
    Base64.emit
      (N.land (N.lor (N.shiftl lc 2) (N.shiftr this_ch 4)) 255)
      (Base64.a2b_loop rest 2 (N.land this_ch 15) 0 (n + 1))
  else if qp =? 2 then
    Base64.emit
      (N.land (N.lor (N.shiftl lc 4) (N.shiftr this_ch 2)) 255)
      (Base64.a2b_loop rest 3 (N.land this_ch 3) 0 (n + 1))
  else
    Base64.emit (N.land (N.lor (N.shiftl lc 6) this_ch) 255)
                (Base64.a2b_loop rest 0 0 0 (n + 1)).
Proof.
  intros Hp Ht. cbn [Base64.a2b_loop]. rewrite Hp. cbv zeta. rewrite Ht.
  reflexivity.
Qed.

(** Data characters alone, one more than a multiple of four in all, then
    the three '=' of the padding step: the decoder gives up.  [q] full
    quads and [r] characters of the next one were read before. *)
Lemma a2b_one_more d : forall q r lc p,
  forallb Issuer.is_b64url_char d = true ->
  r < 4 ->
  (r + len d) mod 4 = 1 ->
  Base64.a2b_loop (map Base64.urlsafe_translate d ++ [61; 61; 61])
                  r lc p (3 * q + (r - 1))
  = inl (Base64.error_one_more (3 * ((4 * q + r + len d) / 4))).
Proof.
  induction d as [|c d IH]; intros q r lc p Hd Hr Hm.
  - change (len (@nil N)) with 0 in *.
    assert (r = 1) by dlia. subst r.
    cbn [map app]. rewrite a2b_loop_padding_only.
    do 2 f_equal. dlia.
  - cbn [forallb] in Hd. apply andb_true_iff in Hd as [Hc Hd].
    destruct (b64url_char_data c Hc) as (Hp & Ht & _).
    rewrite len_cons in *.
    cbn [map app]. rewrite (a2b_loop_data _ _ _ _ _ _ Hp Ht). cbv zeta.
    assert (C : r = 0 \/ r = 1 \/ r = 2 \/ r = 3) by lia.
    destruct C as [->|[->|[->| ->]]]; cbn [N.eqb Pos.eqb].
    + replace (3 * q + (0 - 1)) with (3 * q + (1 - 1)) by lia.
      rewrite IH; [|assumption|lia|].
      * do 2 f_equal. dlia.
      * dlia.
    + replace (3 * q + (1 - 1) + 1) with (3 * q + (2 - 1)) by lia.
      rewrite IH; [|assumption|lia|].
      * rewrite emit_error. do 2 f_equal. dlia.
      * dlia.
    + replace (3 * q + (2 - 1) + 1) with (3 * q + (3 - 1)) by lia.
      rewrite IH; [|assumption|lia|].
      * rewrite emit_error. do 2 f_equal. dlia.
      * dlia.
    + replace (3 * q + (3 - 1) + 1) with (3 * (q + 1) + (0 - 1)) by lia.
      rewrite IH; [|assumption|lia|].
      * rewrite emit_error. do 2 f_equal. dlia.
      * dlia.
Qed.

Lemma b64url_ascii d :
  forallb Issuer.is_b64url_char d = true ->
  forallb (fun c => c <? 128) d = true.
Proof.
  induction d as [|c d IH]; simpl; [reflexivity|].
  intros H. apply andb_true_iff in H as [Hc Hd].
  destruct (b64url_char_data c Hc) as (_ & _ & ->). now apply IH.
Qed.

Lemma b64decode_one_more s :
  forallb Issuer.is_b64url_char s = true ->
  len s mod 4 = 1 ->
  Base64.urlsafe_b64decode (s ++ [61; 61; 61])
  = inl (Exn BinasciiError
             (lit "Invalid base64-encoded string: number of data characters ("
              ++ str_of_N (len s)
              ++ lit ") cannot be 1 more than a multiple of 4")).
Proof.
  intros Hs Hm.
  unfold Base64.urlsafe_b64decode, Base64.bytes_from_decode_data.
  rewrite forallb_app, (b64url_ascii s Hs).
  cbn [forallb N.ltb N.compare Pos.compare Pos.compare_cont andb rbind].
  unfold Base64.a2b_base64. rewrite map_app.
  change (map Base64.urlsafe_translate [61; 61; 61]) with [61; 61; 61].
  pose proof (a2b_one_more s 0 0 0 0 Hs ltac:(lia)) as L.
  change (3 * 0 + (0 - 1)) with 0 in L.
  rewrite L by (rewrite <- Hm; f_equal; lia).
  unfold Base64.error_one_more.
  replace (3 * ((4 * 0 + 0 + len s) / 4) / 3 * 4 + 1) with (len s) by dlia.
  reflexivity.
Qed.

(** ** Payload lengths and padding *)

(** C6 fails as stated: the payload segment eyJhIjoxfQ=== has 13 characters,
    one more than a multiple of four; with the three '=' the script adds the
    base64 decoder still yields the bytes of the JSON text of an object with
    the member a = 1, because it stops at the first complete padding.  The
    decoder returns that object and prints no diagnostic. *)
Lemma length_one_mod_four_can_decode :
  split (ord ".") (lit "h.eyJhIjoxfQ===.s")
  = [lit "h"; lit "eyJhIjoxfQ==="; lit "s"]
  /\ len (lit "eyJhIjoxfQ===") mod 4 = 1
  /\ run (decode_jwt_payload (lit "h.eyJhIjoxfQ===.s"))
     = (inr (Json.JDict [(lit "a", Json.JInt 1)]),
        [Call_urlsafe_b64decode (lit "eyJhIjoxfQ======");
         Call_json_loads [123; 34; 97; 34; 58; 49; 125]])
  /\ printed (snd (run (decode_jwt_payload (lit "h.eyJhIjoxfQ===.s")))) = [].
Proof. vm_compute. repeat split; reflexivity. Qed.

(** C6, amended: for a token with three segments whose payload segment
    consists of characters of the base64url alphabet only and has a length
    of 1 modulo 4, the decoder prints 'Error decoding JWT: ' followed by the
    base64 error and returns None.  For lengths of 0, 2 and 3 modulo 4 the
    segment is handed to the base64 decoder followed by 0, 2 and 1 '='. *)
Theorem length_one_mod_four_alphabet_fails (token h s g : str) (t : trace) :
  split (ord ".") token = [h; s; g] ->
  (forallb Issuer.is_b64url_char s = true ->
   len s mod 4 = 1 ->
   decode_jwt_payload token t
   = (inr PyNone,
      t ++ [Call_urlsafe_b64decode (s ++ lit "===");
            Print (lit "Error decoding JWT: Invalid base64-encoded string: number of data characters ("
                   ++ str_of_N (len s)
                   ++ lit ") cannot be 1 more than a multiple of 4")]))
  /\ (exists res out,
         decode_jwt_payload token t
         = (res, t ++ Call_urlsafe_b64decode (padded s) :: out))
  /\ (len s mod 4 = 0 -> padded s = s)
  /\ (len s mod 4 = 2 -> padded s = s ++ lit "==")
  /\ (len s mod 4 = 3 -> padded s = s ++ lit "=").
Proof.
  intros H.
  assert (P : forall r k, len s mod 4 = r -> pad_count s = k ->
                          padded s = s ++ mul_str (ord "=") k).
  { intros r k _ <-. reflexivity. }
  split; [|split; [|split; [|split]]].
  - intros Hs Hm. rewrite (decode_three _ _ _ _ _ H).
    assert (E : padded s = s ++ lit "===").
    { destruct (pad_count_cases s) as [[R K]|[[R K]|[[R K]|[R K]]]];
        try (rewrite Hm in R; discriminate).
      now rewrite (P _ _ R K). }
    rewrite E. change (lit "===") with [61; 61; 61].
    rewrite (b64decode_one_more s Hs Hm). reflexivity.
  - rewrite (decode_three _ _ _ _ _ H).
    destruct (Base64.urlsafe_b64decode (padded s)) as [e|decoded].
    + eexists _, _. reflexivity.
    + destruct (Json.loads decoded); eexists _, _; reflexivity.
  - intros Hm.
    destruct (pad_count_cases s) as [[R K]|[[R K]|[[R K]|[R K]]]];
      try (rewrite Hm in R; discriminate).
    rewrite (P _ _ R K). apply app_nil_r.
  - intros Hm.
    destruct (pad_count_cases s) as [[R K]|[[R K]|[[R K]|[R K]]]];
      try (rewrite Hm in R; discriminate).
    now rewrite (P _ _ R K).
  - intros Hm.
    destruct (pad_count_cases s) as [[R K]|[[R K]|[[R K]|[R K]]]];
      try (rewrite Hm in R; discriminate).
    now rewrite (P _ _ R K).
Qed.

Lemma length_one_mod_four_alphabet_fails_witness :
  decode_jwt_payload (lit "h.abcde.s") []
  = (inr PyNone,
     [Call_urlsafe_b64decode (lit "abcde===");
      Print (lit "Error decoding JWT: Invalid base64-encoded string: number of data characters (5) cannot be 1 more than a multiple of 4")]).
Proof.
  exact (proj1 (length_one_mod_four_alphabet_fails (lit "h.abcde.s") (lit "h")
                  (lit "abcde") (lit "s") [] eq_refl) eq_refl eq_refl).
Defined.

(** * Further properties of the script *)

(** ** What a run prints *)

(** A run of the decoder prints nothing when it returns the parsed value,
    and one line when it returns None after a failure. *)
Lemma decode_outcome token :
  exists v out,
    (forall t, decode_jwt_payload token t = (inr v, t ++ out))
    /\ (printed out = []
        \/ (v = PyNone /\ exists line, printed out = [line])).
Proof.
  destruct (len (split (ord ".") token) =? 3) eqn:E.
  - destruct (len_three _ E) as (h & s & g & Hs).
    destruct (Base64.urlsafe_b64decode (padded s)) as [e|decoded] eqn:B.
    + eexists _, _. split.
      * intros t. rewrite (decode_three _ _ _ _ _ Hs), B. reflexivity.
      * right. split; [reflexivity|]. eexists. reflexivity.
    + destruct (Json.loads decoded) as [e|v] eqn:J.
      * eexists _, _. split.
        -- intros t. rewrite (decode_three _ _ _ _ _ Hs), B, J. reflexivity.
        -- right. split; [reflexivity|]. eexists. reflexivity.
      * eexists _, _. split.
        -- intros t. rewrite (decode_three _ _ _ _ _ Hs), B, J. reflexivity.
        -- left. reflexivity.
  - eexists _, _. split.
    + intros t. now rewrite decode_malformed.
    + right. split; [reflexivity|]. eexists. reflexivity.
Qed.

Lemma printed_app a b : printed (a ++ b) = printed a ++ printed b.
Proof. unfold printed. apply flat_map_app. Qed.

(** X1: a run of the entry point calls print at most once: after a
    diagnostic of the decoder no JSON text follows.  The entry point ends
    normally when the token comes from the arguments and when standard input
    could be read; an exception raised by reading standard input leaves it,
    the read being outside the try, and nothing has been printed then. *)
Theorem main_prints_at_most_once (floatstr : str -> str)
        (argv : list str) (stdin : result str) (t : trace) :
  exists r out,
    main floatstr argv stdin t = (r, t ++ out)
    /\ (length (printed out) <= 1)%nat
    /\ match stdin with
       | inr _ => r = inr tt
       | inl e => if 1 <? len argv then r = inr tt
                  else r = inl e /\ out = []
       end.
Proof.
  assert (T : forall text,
             exists out,
               main floatstr argv (inr text) t = (inr tt, t ++ out)
               /\ (length (printed out) <= 1)%nat).
  { intros text.
    destruct (decode_outcome
                (if 1 <? len argv then nth 1 argv ([] : str) else strip text))
      as (v & out & F & P).
    rewrite (main_run floatstr argv text t v _ (F t)).
    destruct P as [P|(-> & line & P)].
    - destruct (Encoder.truthy v).
      + exists (out ++ [Print (Encoder.dumps_indent2 floatstr v)]).
        split; [now rewrite app_assoc|].
        rewrite printed_app, P. simpl. lia.
      + exists out. split; [reflexivity|]. rewrite P. simpl. lia.
    - exists out. split; [reflexivity|]. rewrite P. simpl. lia. }
  destruct stdin as [e|text].
  - destruct (1 <? len argv) eqn:A.
    + destruct (T []) as (out & R & L). exists (inr tt), out.
      split; [|split; [exact L|reflexivity]].
      etransitivity; [|exact R]. unfold main. rewrite A. reflexivity.
    + exists (inl e), []. rewrite (main_unreadable floatstr argv e t A).
      rewrite app_nil_r. split; [reflexivity|]. split; [simpl; lia|].
      split; reflexivity.
  - destruct (T text) as (out & R & L). exists (inr tt), out.
    split; [exact R|]. split; [exact L|reflexivity].
Qed.

(** ** Which tokens get which diagnostic *)

(** X2: the line 'Invalid JWT format' is what the decoder prints exactly
    for the tokens that do not have two dots; a token with two dots gets
    either no line or a line that starts differently. *)
Theorem invalid_format_iff_not_two_dots (token : str) :
  printed (snd (run (decode_jwt_payload token))) = [lit "Invalid JWT format"]
  <-> Issuer.dots token <> 2%nat.
Proof.
  unfold run, Issuer.dots. split.
  - intros P D.
    assert (E : (len (split (ord ".") token) =? 3) = true).
    { apply N.eqb_eq. unfold len. rewrite split_length, D. reflexivity. }
    destruct (len_three _ E) as (h & s & g & Hs).
    rewrite (decode_three _ _ _ _ _ Hs) in P.
    destruct (Base64.urlsafe_b64decode (padded s)) as [e|decoded].
    + simpl in P. discriminate.
    + destruct (Json.loads decoded); simpl in P; discriminate.
  - intros D. rewrite decode_malformed; [reflexivity|].
    apply N.eqb_neq. unfold len. rewrite split_length. lia.
Qed.

(** ** Header and signature *)

(** X3: the first and the third segment play no part: two tokens with the
    same payload segment are decoded to the same value with the same run,
    whatever their headers and signatures are. *)
Theorem header_and_signature_ignored (h g h' g' s : str) (t : trace) :
  Issuer.dots h = 0%nat -> Issuer.dots g = 0%nat ->
  Issuer.dots h' = 0%nat -> Issuer.dots g' = 0%nat ->
  Issuer.dots s = 0%nat ->
  decode_jwt_payload (h ++ ord "." :: s ++ ord "." :: g) t
  = decode_jwt_payload (h' ++ ord "." :: s ++ ord "." :: g') t.
Proof.
  unfold Issuer.dots. intros Hh Hg Hh' Hg' Hs.
  apply count_occ_not_In in Hh, Hg, Hh', Hg', Hs.
  rewrite (decode_three _ h s g t (split_three _ _ _ _ Hh Hs Hg)).
  rewrite (decode_three _ h' s g' t (split_three _ _ _ _ Hh' Hs Hg')).
  reflexivity.
Qed.

Lemma header_and_signature_ignored_witness :
  decode_jwt_payload (lit "eyJhbGciOiJIUzI1NiJ9.eyJzdWIiOiIxMjM0NTY3ODkwIn0.dummy") []
  = decode_jwt_payload (lit "x.eyJzdWIiOiIxMjM0NTY3ODkwIn0.") [].
Proof.
  exact (header_and_signature_ignored (lit "eyJhbGciOiJIUzI1NiJ9") (lit "dummy")
           (lit "x") [] (lit "eyJzdWIiOiIxMjM0NTY3ODkwIn0") []
           eq_refl eq_refl eq_refl eq_refl eq_refl).
Defined.

(** ** Input that is not a token *)

Lemma strip_blank s : forallb isspace s = true -> strip s = [].
Proof.
  intros H. unfold strip, rstrip. rewrite (lstrip_all_space s H). reflexivity.
Qed.

(** X4: without an argument and with standard input that is empty or holds
    white space only, the token is the empty string, which has one segment:
    the entry point prints 'Invalid JWT format' and nothing else. *)
Theorem blank_input_is_malformed (floatstr : str -> str) (argv : list str)
        (stdin : str) (t : trace) :
  (length argv <= 1)%nat ->
  forallb isspace stdin = true ->
  main floatstr argv (inr stdin) t
  = (inr tt, t ++ [Print (lit "Invalid JWT format")]).
Proof.
  intros L B.
  assert (A : (1 <? len argv) = false).
  { apply N.ltb_ge. unfold len. lia. }
  rewrite (main_run floatstr argv stdin t PyNone
                    (t ++ [Print (lit "Invalid JWT format")])).
  - reflexivity.
  - rewrite A, (strip_blank stdin B). apply decode_malformed. reflexivity.
Qed.

Lemma blank_input_is_malformed_witness :
  run (main (fun x => x) [lit "decode-jwt.py"] (inr [32; 9; 10]))
  = (inr tt, [Print (lit "Invalid JWT format")]).
Proof.
  apply (blank_input_is_malformed (fun x => x) [lit "decode-jwt.py"]
                                  [32; 9; 10] []).
  - simpl. lia.
  - reflexivity.
Defined.

(** ** Payloads that are not ASCII *)

Lemma forallb_existsb_neg {A} (f : A -> bool) l :
  existsb (fun x => negb (f x)) l = true -> forallb f l = false.
Proof.
  induction l as [|x l IH]; simpl; [discriminate|].
  destruct (f x); simpl; [assumption|reflexivity].
Qed.

(** X5: when the payload segment holds a character outside ASCII, the
    base64 decoder refuses the string before looking at it: the decoder
    prints 'Error decoding JWT: string argument should contain only ASCII
    characters', returns None, and json.loads is not called. *)
Theorem non_ascii_payload_rejected (token h s g : str) (t : trace) :
  split (ord ".") token = [h; s; g] ->
  existsb (fun c => negb (c <? 128)) s = true ->
  decode_jwt_payload token t
  = (inr PyNone,
     t ++ [Call_urlsafe_b64decode (padded s);
           Print (lit "Error decoding JWT: string argument should contain only ASCII characters")]).
Proof.
  intros H E. rewrite (decode_three _ _ _ _ _ H).
  unfold Base64.urlsafe_b64decode, Base64.bytes_from_decode_data, padded.
  rewrite forallb_app, (forallb_existsb_neg _ _ E). reflexivity.
Qed.

Lemma non_ascii_payload_rejected_witness :
  decode_jwt_payload (lit "a." ++ [233] ++ lit ".b") []
  = (inr PyNone,
     [Call_urlsafe_b64decode ([233] ++ lit "===");
      Print (lit "Error decoding JWT: string argument should contain only ASCII characters")]).
Proof.
  exact (non_ascii_payload_rejected (lit "a." ++ [233] ++ lit ".b") (lit "a")
           [233] (lit "b") [] eq_refl eq_refl).
Defined.

(** ** The two alphabets *)

Lemma translate_to_standard c :
  Base64.urlsafe_translate (to_standard c) = Base64.urlsafe_translate c.
Proof.
  unfold to_standard.
  destruct (N.eqb_spec c 45) as [->|H45]; [reflexivity|].
  destruct (N.eqb_spec c 95) as [->|H95]; reflexivity.
Qed.

Lemma ascii_to_standard c : (to_standard c <? 128) = (c <? 128).
Proof.
  unfold to_standard.
  destruct (N.eqb_spec c 45) as [->|H45]; [reflexivity|].
  destruct (N.eqb_spec c 95) as [->|H95]; reflexivity.
Qed.

Lemma ascii_map_to_standard s :
  forallb (fun c => c <? 128) (map to_standard s)
  = forallb (fun c => c <? 128) s.
Proof.
  induction s as [|c s IH]; simpl; [reflexivity|].
  now rewrite ascii_to_standard, IH.
Qed.

(** X6: the base64 decoder the script calls reads '+' and '/' like '-' and
    '_': a segment written in the standard alphabet gives the same bytes, or
    the same error, as the segment in the URL-safe alphabet. *)
Theorem standard_alphabet_accepted (s : str) :
  Base64.urlsafe_b64decode (padded (map to_standard s))
  = Base64.urlsafe_b64decode (padded s).
Proof.
  assert (P : padded (map to_standard s) = map to_standard (padded s)).
  { unfold padded, pad_count, len. rewrite length_map, map_app. f_equal.
    unfold mul_str. rewrite map_repeat. reflexivity. }
  rewrite P. unfold Base64.urlsafe_b64decode, Base64.bytes_from_decode_data.
  rewrite ascii_map_to_standard.
  destruct (forallb (fun c => c <? 128) (padded s)); [|reflexivity].
  cbn [rbind]. rewrite map_map.
  rewrite (map_ext _ Base64.urlsafe_translate translate_to_standard).
  reflexivity.
Qed.

(** ** Base64: what the padding step restores *)

(** Induction on a list three elements at a time. *)
Lemma list_ind3 {A} (P : list A -> Prop) :
  P [] -> (forall a, P [a]) -> (forall a b, P [a; b]) ->
  (forall a b c l, P l -> P (a :: b :: c :: l)) ->
  forall l, P l.
Proof.
  intros H0 H1 H2 H3 l.
  assert (H : P l /\ (forall a, P (a :: l)) /\ (forall a b, P (a :: b :: l))).
  { induction l as [|x l (IH0 & IH1 & IH2)].
    - auto.
    - split; [apply IH1|]. split; [intros a; apply IH2|].
      intros a b. now apply H3. }
  apply H.
Qed.

(** The characters of the alphabet and their values. *)
Lemma b64url_char_value v :
  v < 64 ->
  Base64.table_a2b_base64 (Base64.urlsafe_translate (Issuer.b64url_char v)) = v
  /\ Issuer.is_b64url_char (Issuer.b64url_char v) = true
  /\ Issuer.b64url_char v <> ord ".".
Proof.
  intros H.
  pose proof (forall_below
    (fun v =>
       (Base64.table_a2b_base64
          (Base64.urlsafe_translate (Issuer.b64url_char v)) =? v)
       && Issuer.is_b64url_char (Issuer.b64url_char v)
       && negb (Issuer.b64url_char v =? ord "."))
    64 ltac:(vm_compute; reflexivity) v H) as F.
  cbv beta in F.
  apply andb_true_iff in F as [F F3]. apply andb_true_iff in F as [F1 F2].
  apply N.eqb_eq in F1. apply negb_true_iff, N.eqb_neq in F3. auto.
Qed.

Lemma forall_below2 (P : N -> N -> bool) (n m : nat) :
  forallb (fun a => forallb (P a) (map N.of_nat (seq 0 m)))
          (map N.of_nat (seq 0 n)) = true ->
  forall a b, a < N.of_nat n -> b < N.of_nat m -> P a b = true.
Proof.
  intros H a b Ha Hb.
  apply (forall_below (P a) m); [|assumption].
  apply (forall_below (fun a => forallb (P a) (map N.of_nat (seq 0 m))) n H a
                      Ha).
Qed.

(** The three bytes come back from the four values they were cut into. *)
Lemma quad_bytes a b :
  a < 256 -> b < 256 ->
  N.land (N.lor (N.shiftl (a / 4) 2) (N.shiftr (a mod 4 * 16 + b / 16) 4)) 255
  = a
  /\ N.land (N.lor (N.shiftl (N.land (a mod 4 * 16 + b / 16) 15) 4)
                   (N.shiftr (b mod 16 * 4) 2)) 255 = b
  /\ N.land (N.lor (N.shiftl (N.land (a mod 16 * 4 + b / 64) 3) 6)
                   (b mod 64)) 255 = b
  /\ N.shiftr (a mod 16 * 4 + b / 64) 2 = N.shiftr (a mod 16 * 4) 2.
Proof.
  intros Ha Hb.
  pose proof (forall_below2
    (fun a b =>
       (N.land (N.lor (N.shiftl (a / 4) 2)
                      (N.shiftr (a mod 4 * 16 + b / 16) 4)) 255 =? a)
       && (N.land (N.lor (N.shiftl (N.land (a mod 4 * 16 + b / 16) 15) 4)
                         (N.shiftr (b mod 16 * 4) 2)) 255 =? b)
       && (N.land (N.lor (N.shiftl (N.land (a mod 16 * 4 + b / 64) 3) 6)
                         (b mod 64)) 255 =? b)
       && (N.shiftr (a mod 16 * 4 + b / 64) 2 =? N.shiftr (a mod 16 * 4) 2))
    256 256 ltac:(vm_compute; reflexivity) a b Ha Hb) as F.
  cbv beta in F.
  apply andb_true_iff in F as [F F4]. apply andb_true_iff in F as [F F3].
  apply andb_true_iff in F as [F1 F2].
  apply N.eqb_eq in F1, F2, F3, F4. auto.
Qed.

Lemma a2b_loop_end2 lc n : Base64.a2b_loop [61; 61] 2 lc 0 n = inr [].
Proof. reflexivity. Qed.

Lemma a2b_loop_end3 lc n : Base64.a2b_loop [61] 3 lc 0 n = inr [].
Proof. reflexivity. Qed.

Lemma a2b_loop_value v rest qp lc p n :
  v < 64 ->
  Base64.a2b_loop (Base64.urlsafe_translate (Issuer.b64url_char v) :: rest)
                  qp lc p n =
  if qp =? 0 then Base64.a2b_loop rest 1 v 0 n
  else if qp =? 1 then
    Base64.emit (N.land (N.lor (N.shiftl lc 2) (N.shiftr v 4)) 255)
                (Base64.a2b_loop rest 2 (N.land v 15) 0 (n + 1))
  else if qp =? 2 then
    Base64.emit (N.land (N.lor (N.shiftl lc 4) (N.shiftr v 2)) 255)
                (Base64.a2b_loop rest 3 (N.land v 3) 0 (n + 1))
  else
    Base64.emit (N.land (N.lor (N.shiftl lc 6) v) 255)
                (Base64.a2b_loop rest 0 0 0 (n + 1)).
Proof.
  intros Hv. destruct (b64url_char_value v Hv) as (V & A & _).
  destruct (b64url_char_data _ A) as (Hp & Ht & _).
  rewrite (a2b_loop_data _ _ _ _ _ _ Hp Ht). cbv zeta. rewrite V.
  reflexivity.
Qed.

Lemma bytes_head a bs :
  forallb (fun b => b <? 256) (a :: bs) = true ->
  a < 256 /\ forallb (fun b => b <? 256) bs = true.
Proof.
  cbn [forallb]. intros H. apply andb_true_iff in H as [H1 H2].
  apply N.ltb_lt in H1. auto.
Qed.

(** The base64 decoder gives back the bytes of an encoded text followed by
    its padding. *)
Lemma a2b_encoded bs :
  forallb (fun b => b <? 256) bs = true ->
  forall lc p n,
    Base64.a2b_loop
      (map Base64.urlsafe_translate
           (Issuer.b64url_encode bs ++ b64_padding bs)) 0 lc p n
    = inr bs.
Proof.
  induction bs as [|a|a b|a b c bs IH] using list_ind3; intros Hb lc p n.
  - reflexivity.
  - apply bytes_head in Hb as [Ha _].
    destruct (quad_bytes a 0 Ha ltac:(lia)) as (B1 & _).
    change (0 / 16) with 0 in B1. rewrite N.add_0_r in B1.
    cbn [Issuer.b64url_encode b64_padding map app].
    rewrite a2b_loop_value by dlia. cbn [N.eqb].
    rewrite a2b_loop_value by dlia. cbn [N.eqb Pos.eqb].
    change (map Base64.urlsafe_translate [61; 61]) with [61; 61].
    rewrite a2b_loop_end2, B1. reflexivity.
  - apply bytes_head in Hb as [Ha Hb]. apply bytes_head in Hb as [Hb _].
    destruct (quad_bytes a b Ha Hb) as (B1 & B2 & _).
    cbn [Issuer.b64url_encode b64_padding map app].
    rewrite a2b_loop_value by dlia. cbn [N.eqb].
    rewrite a2b_loop_value by dlia. cbn [N.eqb Pos.eqb].
    rewrite a2b_loop_value by dlia. cbn [N.eqb Pos.eqb].
    change (map Base64.urlsafe_translate [61]) with [61].
    rewrite a2b_loop_end3, B1, B2. reflexivity.
  - apply bytes_head in Hb as [Ha Hb]. apply bytes_head in Hb as [Hb Hc].
    apply bytes_head in Hc as [Hc Hbs].
    destruct (quad_bytes a b Ha Hb) as (B1 & B2 & _).
    destruct (quad_bytes b c Hb Hc) as (_ & _ & B3 & B4).
    cbn [Issuer.b64url_encode b64_padding map app].
    rewrite a2b_loop_value by dlia. cbn [N.eqb].
    rewrite a2b_loop_value by dlia. cbn [N.eqb Pos.eqb].
    rewrite a2b_loop_value by dlia. cbn [N.eqb Pos.eqb].
    rewrite a2b_loop_value by dlia. cbn [N.eqb Pos.eqb].
    rewrite (IH Hbs), B1, B4, B2, B3. reflexivity.
Qed.

Lemma b64url_encode_alphabet bs :
  forallb (fun b => b <? 256) bs = true ->
  forallb Issuer.is_b64url_char (Issuer.b64url_encode bs) = true.
Proof.
  assert (V : forall v, v < 64 ->
                        Issuer.is_b64url_char (Issuer.b64url_char v) = true)
    by (intros v Hv; apply (b64url_char_value v Hv)).
  induction bs as [|a|a b|a b c bs IH] using list_ind3; intros Hb.
  - reflexivity.
  - apply bytes_head in Hb as [Ha _].
    cbn [Issuer.b64url_encode forallb]. rewrite !V by dlia. reflexivity.
  - apply bytes_head in Hb as [Ha Hb]. apply bytes_head in Hb as [Hb _].
    cbn [Issuer.b64url_encode forallb]. rewrite !V by dlia. reflexivity.
  - apply bytes_head in Hb as [Ha Hb]. apply bytes_head in Hb as [Hb Hc].
    apply bytes_head in Hc as [Hc Hbs].
    cbn [Issuer.b64url_encode forallb app]. rewrite !V by dlia.
    rewrite (IH Hbs). reflexivity.
Qed.

Lemma padded_cons4 a b c d s :
  padded (a :: b :: c :: d :: s) = a :: b :: c :: d :: padded s.
Proof.
  unfold padded, pad_count. rewrite !len_cons.
  replace ((len s + 1 + 1 + 1 + 1) mod 4) with (len s mod 4) by dlia.
  reflexivity.
Qed.

(** On unpadded base64url text the script adds exactly the padding of
    RFC 4648. *)
Lemma padded_encoded bs :
  padded (Issuer.b64url_encode bs) = Issuer.b64url_encode bs ++ b64_padding bs.
Proof.
  induction bs as [|a|a b|a b c bs IH] using list_ind3; try reflexivity.
  cbn [Issuer.b64url_encode b64_padding app]. rewrite padded_cons4, IH.
  reflexivity.
Qed.

Lemma b64url_no_dot s :
  forallb Issuer.is_b64url_char s = true -> Issuer.dots s = 0%nat.
Proof.
  unfold Issuer.dots. intros H. apply count_occ_not_In. intros I.
  rewrite forallb_forall in H. specialize (H _ I). discriminate.
Qed.

Lemma b64decode_padded_encoded bs :
  forallb (fun b => b <? 256) bs = true ->
  Base64.urlsafe_b64decode (padded (Issuer.b64url_encode bs)) = inr bs.
Proof.
  intros Hb. rewrite padded_encoded.
  unfold Base64.urlsafe_b64decode, Base64.bytes_from_decode_data.
  rewrite forallb_app, (b64url_ascii _ (b64url_encode_alphabet bs Hb)).
  assert (P : forallb (fun c => c <? 128) (b64_padding bs) = true).
  { clear Hb. induction bs as [|a|a b|a b c bs IH] using list_ind3;
      try reflexivity. exact IH. }
  rewrite P. cbn [andb rbind]. unfold Base64.a2b_base64.
  now apply a2b_encoded.
Qed.

(** X7: when the payload segment is the unpadded base64url text of a byte
    string, the padding step and the base64 decoder give back exactly those
    bytes: they are what json.loads receives, and its value or error decides
    the outcome. *)
Theorem base64_payload_recovered (h g : str) (bs : bytes) (t : trace) :
  Issuer.dots h = 0%nat -> Issuer.dots g = 0%nat ->
  forallb (fun b => b <? 256) bs = true ->
  decode_jwt_payload
    (h ++ ord "." :: Issuer.b64url_encode bs ++ ord "." :: g) t
  = match Json.loads bs with
    | inl e =>
        (inr PyNone,
         t ++ [Call_urlsafe_b64decode
                 (Issuer.b64url_encode bs ++ b64_padding bs);
               Call_json_loads bs;
               Print (lit "Error decoding JWT: " ++ exn_msg e)])
    | inr v =>
        (inr v,
         t ++ [Call_urlsafe_b64decode
                 (Issuer.b64url_encode bs ++ b64_padding bs);
               Call_json_loads bs])
    end.
Proof.
  unfold Issuer.dots. intros Hh Hg Hb.
  apply count_occ_not_In in Hh, Hg.
  pose proof (b64url_no_dot _ (b64url_encode_alphabet bs Hb)) as Hs.
  apply count_occ_not_In in Hs.
  rewrite (decode_three _ h (Issuer.b64url_encode bs) g t
                        (split_three _ _ _ _ Hh Hs Hg)).
  rewrite (b64decode_padded_encoded bs Hb), padded_encoded. reflexivity.
Qed.

Lemma base64_payload_recovered_witness :
  decode_jwt_payload (lit "h.dGVzdA.s") []
  = (inr PyNone,
     [Call_urlsafe_b64decode (lit "dGVzdA=="); Call_json_loads (lit "test");
      Print (lit "Error decoding JWT: Expecting value: line 1 column 1 (char 0)")]).
Proof.
  exact (base64_payload_recovered (lit "h") (lit "s") (lit "test") []
                                  eq_refl eq_refl eq_refl).
Defined.

(** ** Payloads that carry their padding *)

Lemma padded_idempotent s : padded (padded s) = padded s.
Proof.
  unfold padded at 1. unfold pad_count. rewrite padded_length.
  apply app_nil_r.
Qed.

Lemma dots_app a b : Issuer.dots (a ++ b) = (Issuer.dots a + Issuer.dots b)%nat.
Proof. unfold Issuer.dots. apply count_occ_app. Qed.

Lemma dots_padded s : Issuer.dots (padded s) = Issuer.dots s.
Proof.
  unfold padded. rewrite dots_app.
  assert (P : Issuer.dots (mul_str (ord "=") (pad_count s)) = 0%nat).
  { unfold Issuer.dots, mul_str. apply count_occ_not_In.
    intros I. apply repeat_spec in I. discriminate. }
  rewrite P. lia.
Qed.

(** X8: a payload segment that already ends with the '=' the script would
    add is left as it is: the token is decoded with the same value and the
    same run as the token with the unpadded segment. *)
Theorem padded_payload_same_run (h s g : str) (t : trace) :
  Issuer.dots h = 0%nat -> Issuer.dots s = 0%nat -> Issuer.dots g = 0%nat ->
  decode_jwt_payload (h ++ ord "." :: padded s ++ ord "." :: g) t
  = decode_jwt_payload (h ++ ord "." :: s ++ ord "." :: g) t.
Proof.
  intros Hh Hs Hg.
  assert (Hp : Issuer.dots (padded s) = 0%nat) by now rewrite dots_padded.
  unfold Issuer.dots in *.
  apply count_occ_not_In in Hh, Hs, Hg, Hp.
  rewrite (decode_three _ h (padded s) g t (split_three _ _ _ _ Hh Hp Hg)).
  rewrite (decode_three _ h s g t (split_three _ _ _ _ Hh Hs Hg)).
  rewrite padded_idempotent. reflexivity.
Qed.

Lemma padded_payload_same_run_witness :
  decode_jwt_payload (lit "h.dGVzdA==.s") []
  = decode_jwt_payload (lit "h.dGVzdA.s") [].
Proof.
  exact (padded_payload_same_run (lit "h") (lit "dGVzdA") (lit "s") []
                                 eq_refl eq_refl eq_refl).
Defined.

(** ** White space around the token *)

Lemma isspace_not_dot c : isspace c = true -> c <> ord ".".
Proof. intros H ->. discriminate H. Qed.

Lemma lstrip_dot a b : lstrip (a ++ ord "." :: b) = lstrip a ++ ord "." :: b.
Proof.
  induction a as [|c a IH]; [reflexivity|]. cbn [app lstrip].
  destruct (isspace c); [exact IH|reflexivity].
Qed.

Lemma rstrip_dot a b : rstrip (a ++ ord "." :: b) = a ++ ord "." :: rstrip b.
Proof.
  unfold rstrip. rewrite rev_app_distr. cbn [rev]. rewrite <- app_assoc.
  cbn [app]. rewrite lstrip_dot, rev_app_distr. cbn [rev].
  now rewrite rev_involutive, <- app_assoc.
Qed.

Lemma lstrip_incl x s : In x (lstrip s) -> In x s.
Proof.
  induction s as [|c s IH]; [auto|]. cbn [lstrip].
  destruct (isspace c); [right; auto|auto].
Qed.

Lemma rstrip_incl x s : In x (rstrip s) -> In x s.
Proof.
  unfold rstrip. intros H. apply in_rev in H. apply lstrip_incl in H.
  now apply in_rev.
Qed.

Lemma dots_lstrip s : Issuer.dots (lstrip s) = Issuer.dots s.
Proof.
  induction s as [|c s IH]; [reflexivity|]. cbn [lstrip].
  destruct (isspace c) eqn:E; [|reflexivity].
  rewrite IH. unfold Issuer.dots. cbn [count_occ].
  destruct (N.eq_dec c (ord ".")) as [D|_]; [|reflexivity].
  now apply isspace_not_dot in E.
Qed.

Lemma dots_rev s : Issuer.dots (rev s) = Issuer.dots s.
Proof.
  induction s as [|c s IH]; [reflexivity|]. cbn [rev].
  rewrite dots_app, IH. unfold Issuer.dots. cbn [count_occ].
  destruct (N.eq_dec c (ord ".")); lia.
Qed.

Lemma dots_strip s : Issuer.dots (strip s) = Issuer.dots s.
Proof.
  unfold strip, rstrip. now rewrite dots_rev, dots_lstrip, dots_rev, dots_lstrip.
Qed.

(** The text up to the first dot. *)
Lemma first_dot s n :
  Issuer.dots s = S n ->
  exists a b, s = a ++ ord "." :: b /\ ~ In (ord ".") a /\ Issuer.dots b = n.
Proof.
  unfold Issuer.dots. induction s as [|c s IH]; [discriminate|].
  cbn [count_occ]. destruct (N.eq_dec c (ord ".")) as [->|Hc]; intros H.
  - exists [], s. split; [reflexivity|]. split; [intros []|]. congruence.
  - destruct (IH H) as (a & b & -> & Ha & Hb).
    exists (c :: a), b. split; [reflexivity|]. split; [|exact Hb].
    intros [E|I]; [congruence|contradiction].
Qed.

Lemma two_dots s :
  Issuer.dots s = 2%nat ->
  exists h p g,
    s = h ++ ord "." :: p ++ ord "." :: g
    /\ ~ In (ord ".") h /\ ~ In (ord ".") p /\ ~ In (ord ".") g.
Proof.
  intros H. destruct (first_dot s 1 H) as (h & r & -> & Hh & Hr).
  destruct (first_dot r 0 Hr) as (p & g & -> & Hp & Hg).
  exists h, p, g. repeat split; auto.
  unfold Issuer.dots in Hg. now apply count_occ_not_In in Hg.
Qed.

(** Stripping a token changes nothing for the decoder: it shortens the
    header and the signature only, and removes no dot. *)
Lemma strip_immaterial s t :
  decode_jwt_payload (strip s) t = decode_jwt_payload s t.
Proof.
  destruct (Nat.eq_dec (Issuer.dots s) 2) as [D|D].
  - destruct (two_dots s D) as (h & p & g & -> & Hh & Hp & Hg).
    unfold strip. rewrite lstrip_dot, !rstrip_dot.
    assert (Hh' : ~ In (ord ".") (lstrip h))
      by (intros I; apply Hh; now apply lstrip_incl).
    assert (Hg' : ~ In (ord ".") (rstrip g))
      by (intros I; apply Hg; now apply rstrip_incl).
    rewrite (decode_three _ _ p _ t (split_three _ _ _ _ Hh' Hp Hg')).
    rewrite (decode_three _ h p g t (split_three _ _ _ _ Hh Hp Hg)).
    reflexivity.
  - assert (M : forall x, Issuer.dots x = Issuer.dots s ->
                          (len (split (ord ".") x) =? 3) = false).
    { intros x E. apply N.eqb_neq. unfold len. rewrite split_length.
      unfold Issuer.dots in E, D. rewrite E. lia. }
    rewrite (decode_malformed _ t (M _ (dots_strip s))).
    rewrite (decode_malformed _ t (M _ eq_refl)). reflexivity.
Qed.

(** X9: a token given as the first argument is treated like the same text
    on standard input, also with white space around it: the two runs of the
    entry point are the same.  Stripping the input only shortens the header
    and the signature, which the decoder does not read, and leaves the
    number of dots; further arguments and the input are not looked at when
    there is an argument. *)
Theorem argument_same_as_stdin (floatstr : str -> str) (prog s : str)
        (more : list str) (unread : result str) (t : trace) :
  main floatstr (prog :: s :: more) unread t
  = main floatstr [prog] (inr s) t.
Proof.
  rewrite main_argument, !main_token. unfold bind.
  change (1 <? len [prog; s]) with true.
  change (1 <? len [prog]) with false.
  cbv iota. cbn [nth]. now rewrite strip_immaterial.
Qed.

(** ** Base64: the padding step is enough *)

(** The loop on alphabet characters followed by the padding that completes
    the last group: it ends without error, and has then written three bytes
    for every four characters read so far, the incomplete group rounded
    down. *)
Lemma a2b_alphabet d : forall r lc n,
  forallb Issuer.is_b64url_char d = true ->
  r < 4 ->
  (r + len d) mod 4 <> 1 ->
  exists bs,
    Base64.a2b_loop
      (map Base64.urlsafe_translate d
       ++ mul_str 61 (if (r + len d) mod 4 =? 0 then 0
                      else 4 - (r + len d) mod 4))
      r lc 0 n
    = inr bs
    /\ len bs + 3 * r / 4 = 3 * (r + len d) / 4.
Proof.
  induction d as [|c d IH]; intros r lc n Hd Hr Hm.
  - change (len (@nil N)) with 0 in *. rewrite N.add_0_r in *.
    rewrite N.mod_small in * by exact Hr.
    assert (R : r = 0 \/ r = 2 \/ r = 3) by lia.
    destruct R as [->|[->| ->]]; exists []; split; reflexivity.
  - cbn [forallb] in Hd. apply andb_true_iff in Hd as [Hc Hd].
    destruct (b64url_char_data c Hc) as (Hp & Ht & _).
    cbn [map app]. rewrite a2b_loop_data by assumption. cbv zeta.
    rewrite len_cons in *.
    assert (R : r = 0 \/ r = 1 \/ r = 2 \/ r = 3) by lia.
    destruct R as [->|[->|[->| ->]]]; cbn [N.eqb Pos.eqb].
    + destruct (IH 1 (Base64.table_a2b_base64 (Base64.urlsafe_translate c))
                  n Hd ltac:(lia) ltac:(dlia)) as (bs & E & L).
      replace ((0 + (len d + 1)) mod 4) with ((1 + len d) mod 4) by dlia.
      exists bs. split; [exact E|dlia].
    + destruct (IH 2 (N.land (Base64.table_a2b_base64
                                (Base64.urlsafe_translate c)) 15)
                  (n + 1) Hd ltac:(lia) ltac:(dlia)) as (bs & E & L).
      replace ((1 + (len d + 1)) mod 4) with ((2 + len d) mod 4) by dlia.
      rewrite E. eexists. split; [reflexivity|]. rewrite len_cons. dlia.
    + destruct (IH 3 (N.land (Base64.table_a2b_base64
                                (Base64.urlsafe_translate c)) 3)
                  (n + 1) Hd ltac:(lia) ltac:(dlia)) as (bs & E & L).
      replace ((2 + (len d + 1)) mod 4) with ((3 + len d) mod 4) by dlia.
      rewrite E. eexists. split; [reflexivity|]. rewrite len_cons. dlia.
    + destruct (IH 0 0 (n + 1) Hd ltac:(lia) ltac:(dlia)) as (bs & E & L).
      replace ((3 + (len d + 1)) mod 4) with ((0 + len d) mod 4) by dlia.
      rewrite E. eexists. split; [reflexivity|]. rewrite len_cons. dlia.
Qed.

(** X10: a payload segment written in the base64url alphabet, of a length
    that is not one more than a multiple of four, is always decoded by the
    base64 step once the decoder has padded it: the error 'Incorrect
    padding' cannot occur for it, and three bytes come out for every four
    characters, rounded down. *)
Theorem alphabet_segment_decodes (s : str) :
  forallb Issuer.is_b64url_char s = true ->
  len s mod 4 <> 1 ->
  exists bs,
    Base64.urlsafe_b64decode (padded s) = inr bs
    /\ len bs = 3 * len s / 4.
Proof.
  intros Hs Hm.
  destruct (a2b_alphabet s 0 0 0 Hs ltac:(lia)
              ltac:(now rewrite N.add_0_l)) as (bs & E & L).
  rewrite N.add_0_l in E, L. exists bs. split; [|dlia].
  unfold Base64.urlsafe_b64decode, Base64.bytes_from_decode_data, padded.
  assert (P : forallb (fun c => c <? 128) (mul_str (ord "=") (pad_count s))
              = true).
  { unfold mul_str. induction (N.to_nat (pad_count s)) as [|k IH];
      [reflexivity|exact IH]. }
  rewrite forallb_app, (b64url_ascii s Hs), P. cbn [andb rbind].
  unfold Base64.a2b_base64. rewrite map_app.
  assert (Q : map Base64.urlsafe_translate (mul_str (ord "=") (pad_count s))
              = mul_str 61 (pad_count s)).
  { unfold mul_str. now rewrite map_repeat. }
  rewrite Q. exact E.
Qed.

Lemma alphabet_segment_decodes_witness :
  exists bs,
    Base64.urlsafe_b64decode (padded (lit "eyJhIjoxfQ")) = inr bs
    /\ len bs = 3 * len (lit "eyJhIjoxfQ") / 4.
Proof.
  apply (alphabet_segment_decodes (lit "eyJhIjoxfQ")).
  - reflexivity.
  - vm_compute. discriminate.
Defined.

(** * JSON text read back *)

(** ** Strings *)

Lemma scanstring_plain begin c tail :
  (c =? 34) = false -> (c =? 92) = false -> (c <=? 31) = false ->
  Json.scanstring begin (c :: tail) = Json.emit c (Json.scanstring begin tail).
Proof.
  intros H1 H2 H3. cbn [Json.scanstring]. rewrite H1, H2, H3. reflexivity.
Qed.

Lemma scanstring_backslash begin e c tail :
  (e =? 117) = false -> Json.backslash e = Some c ->
  Json.scanstring begin (92 :: e :: tail)
  = Json.emit c (Json.scanstring begin tail).
Proof.
  intros H1 H2. cbn [Json.scanstring N.eqb Pos.eqb]. rewrite H1, H2.
  reflexivity.
Qed.

(** A \u escape of a code unit that is not the first half of a pair. *)
Lemma scanstring_u begin h1 h2 h3 h4 u x tail :
  Json.hex4 h1 h2 h3 h4 = Some u ->
  Codec.is_high_surrogate u = false ->
  Json.scanstring begin (92 :: 117 :: h1 :: h2 :: h3 :: h4 :: x :: tail)
  = Json.emit u (Json.scanstring begin (x :: tail)).
Proof.
  intros Hx Hh. remember (x :: tail) as s6 eqn:E.
  cbn [Json.scanstring N.eqb Pos.eqb]. rewrite E at 1. cbv iota beta.
  rewrite Hx, Hh. cbn [andb].
  destruct s6 as [|x0 [|x1 [|x2 [|x3 [|x4 [|x5 [|x6 s12]]]]]]]; reflexivity.
Qed.

(** The two \u escapes of a surrogate pair. *)
Lemma scanstring_pair begin h1 h2 h3 h4 g1 g2 g3 g4 hi lo x tail :
  Json.hex4 h1 h2 h3 h4 = Some hi ->
  Json.hex4 g1 g2 g3 g4 = Some lo ->
  Codec.is_high_surrogate hi = true ->
  Codec.is_low_surrogate lo = true ->
  Json.scanstring begin
    (92 :: 117 :: h1 :: h2 :: h3 :: h4
        :: 92 :: 117 :: g1 :: g2 :: g3 :: g4 :: x :: tail)
  = Json.emit (Codec.join_surrogates hi lo)
              (Json.scanstring begin (x :: tail)).
Proof.
  intros Hx Hy Hh Hl. remember (x :: tail) as s12 eqn:E.
  cbn [Json.scanstring N.eqb Pos.eqb].
  rewrite Hx, Hh. cbn [andb N.eqb Pos.eqb]. rewrite Hy, Hl.
  subst s12. reflexivity.
Qed.

Lemma hexval_hex_digit d :
  d < 16 -> Json.hexval (Codec.hex_digit d) = Some d.
Proof.
  intros H.
  pose proof (forall_below
    (fun d => match Json.hexval (Codec.hex_digit d) with
              | Some x => x =? d
              | None => false
              end)
    16 ltac:(vm_compute; reflexivity) d H) as F.
  cbv beta in F. destruct (Json.hexval (Codec.hex_digit d)); [|discriminate].
  apply N.eqb_eq in F. now subst.
Qed.

(** Four hexadecimal digits read back. *)
Lemma hex4_digits u :
  u < 65536 ->
  Json.hex4 (Codec.hex_digit (u / 4096 mod 16)) (Codec.hex_digit (u / 256 mod 16))
            (Codec.hex_digit (u / 16 mod 16)) (Codec.hex_digit (u mod 16))
  = Some u.
Proof.
  intros H. unfold Json.hex4.
  rewrite !hexval_hex_digit by dlia. f_equal. dlia.
Qed.

Lemma lor_shiftl_low a b k :
  b < 2 ^ k -> N.lor (N.shiftl a k) b = a * 2 ^ k + b.
Proof.
  intros Hb. rewrite N.shiftl_mul_pow2.
  assert (L : N.land (a * 2 ^ k) b = 0).
  { apply N.bits_inj. intros n. rewrite N.land_spec, N.bits_0.
    destruct (N.lt_ge_cases n k) as [Hn|Hn].
    - now rewrite N.mul_pow2_bits_low.
    - destruct (N.eq_dec b 0) as [->|Hz].
      + rewrite N.bits_0. apply andb_false_r.
      + rewrite (N.bits_above_log2 b n), andb_false_r; [reflexivity|].
        apply N.lt_le_trans with k; [|assumption].
        apply N.log2_lt_pow2; lia. }
  rewrite <- (N.lxor_lor _ _ L). symmetry. now apply N.add_nocarry_lxor.
Qed.

(** The halves of a surrogate pair and the code point they stand for. *)
Lemma surrogate_halves a b :
  a < 1024 -> b < 1024 ->
  N.lor 55296 a = 55296 + a
  /\ N.lor 56320 b = 56320 + b
  /\ N.lor (N.shiftl a 10) b = a * 1024 + b.
Proof.
  intros Ha Hb.
  pose proof (forall_below
    (fun a => (N.lor 55296 a =? 55296 + a) && (N.lor 56320 a =? 56320 + a))
    1024 ltac:(vm_compute; reflexivity)) as F.
  cbv beta in F.
  pose proof (F a Ha) as Fa. pose proof (F b Hb) as Fb.
  apply andb_true_iff in Fa as [Fa _]. apply andb_true_iff in Fb as [_ Fb].
  apply N.eqb_eq in Fa, Fb.
  split; [assumption|]. split; [assumption|].
  now rewrite (lor_shiftl_low a b 10).
Qed.

Lemma surrogate_pair_of c :
  65536 <= c -> c < 1114112 ->
  let n := c - 65536 in
  let hi := N.lor 55296 (N.land (N.shiftr n 10) 1023) in
  let lo := N.lor 56320 (N.land n 1023) in
  hi < 65536 /\ lo < 65536
  /\ Codec.is_high_surrogate hi = true /\ Codec.is_low_surrogate lo = true
  /\ Codec.join_surrogates hi lo = c.
Proof.
  intros H1 H2 n hi lo.
  assert (A : N.land (N.shiftr n 10) 1023 = n / 1024).
  { change 1023 with (N.ones 10). rewrite N.land_ones, N.shiftr_div_pow2.
    change (2 ^ 10) with 1024. subst n. dlia. }
  assert (B : N.land n 1023 = n mod 1024).
  { change 1023 with (N.ones 10). now rewrite N.land_ones. }
  destruct (surrogate_halves (n / 1024) (n mod 1024)) as (E1 & E2 & E3);
    [subst n; dlia|dlia|].
  subst hi lo. rewrite A, B, E1, E2.
  unfold Codec.is_high_surrogate, Codec.is_low_surrogate, Codec.join_surrogates.
  replace (55296 + n / 1024 - 55296) with (n / 1024) by lia.
  replace (56320 + n mod 1024 - 56320) with (n mod 1024) by lia.
  rewrite E3.
  repeat split; try (subst n; dlia).
  - apply andb_true_iff. split; apply N.leb_le; subst n; dlia.
  - apply andb_true_iff. split; apply N.leb_le; subst n; dlia.
Qed.

(** One character of a string, as encode_basestring_ascii writes it, is
    read back by scanstring. *)
Lemma scanstring_escape_ascii begin c x tail :
  Issuer.is_scalar c = true ->
  Json.scanstring begin (Encoder.escape_ascii c ++ x :: tail)
  = Json.emit c (Json.scanstring begin (x :: tail)).
Proof.
  intros Hc. unfold Issuer.is_scalar in Hc.
  apply andb_true_iff in Hc as [Hlt Hs]. apply N.ltb_lt in Hlt.
  apply negb_true_iff in Hs.
  unfold Encoder.escape_ascii.
  destruct (N.eqb_spec c 34) as [->|N34];
    [apply scanstring_backslash; reflexivity|].
  destruct (N.eqb_spec c 92) as [->|N92];
    [apply scanstring_backslash; reflexivity|].
  destruct (N.eqb_spec c 10) as [->|N10];
    [apply scanstring_backslash; reflexivity|].
  destruct (N.eqb_spec c 13) as [->|N13];
    [apply scanstring_backslash; reflexivity|].
  destruct (N.eqb_spec c 9) as [->|N9];
    [apply scanstring_backslash; reflexivity|].
  destruct (N.eqb_spec c 8) as [->|N8];
    [apply scanstring_backslash; reflexivity|].
  destruct (N.eqb_spec c 12) as [->|N12];
    [apply scanstring_backslash; reflexivity|].
  destruct ((32 <=? c) && (c <=? 126)) eqn:R.
  - apply andb_true_iff in R as [R1 R2]. apply N.leb_le in R1, R2.
    apply scanstring_plain.
    + now apply N.eqb_neq.
    + now apply N.eqb_neq.
    + apply N.leb_gt. lia.
  - destruct (N.ltb_spec c 65536) as [L|L].
    + unfold Encoder.u_escape. cbn [app].
      apply scanstring_u; [now apply hex4_digits|].
      unfold Codec.is_surrogate in Hs. unfold Codec.is_high_surrogate.
      apply andb_false_iff in Hs as [Hs|Hs].
      * now rewrite Hs.
      * apply N.leb_gt in Hs. apply andb_false_iff. right.
        apply N.leb_gt. lia.
    + destruct (surrogate_pair_of c L Hlt) as (B1 & B2 & S1 & S2 & J).
      cbv zeta in *. unfold Encoder.u_escape. cbn [app].
      rewrite (scanstring_pair begin _ _ _ _ _ _ _ _ _ _ x tail
                 (hex4_digits _ B1) (hex4_digits _ B2) S1 S2).
      now rewrite J.
Qed.

(** A whole string with its closing quote. *)
Lemma scanstring_encoded begin s rest :
  Issuer.wf_str s = true ->
  Json.scanstring begin (flat_map Encoder.escape_ascii s ++ 34 :: rest)
  = inr (s, rest).
Proof.
  unfold Issuer.wf_str. induction s as [|c s IH]; intros H.
  - reflexivity.
  - cbn [forallb] in H. apply andb_true_iff in H as [Hc Hs].
    cbn [flat_map]. rewrite <- app_assoc.
    destruct (flat_map Encoder.escape_ascii s ++ 34 :: rest) as [|x tail] eqn:E.
    + destruct (flat_map Encoder.escape_ascii s); discriminate.
    + rewrite (scanstring_escape_ascii begin c x tail Hc).
      rewrite (IH Hs). reflexivity.
Qed.

(** ** Numbers *)

Lemma N_of_digits_snoc ds d :
  Json.N_of_digits (ds ++ [d]) = Json.N_of_digits ds * 10 + (d - 48).
Proof. unfold Json.N_of_digits. now rewrite fold_left_app. Qed.

Lemma isdigit_digit x : x < 10 -> Json.isdigit (48 + x) = true.
Proof.
  intros H. unfold Json.isdigit. apply andb_true_iff.
  split; apply N.leb_le; lia.
Qed.

(** The digits [digits_fuel] writes: decimal digits, none of them a leading
    zero, whose value is the number. *)
Lemma digits_fuel_spec fuel : forall n acc,
  (0 < fuel)%nat ->
  n < 2 ^ N.of_nat fuel ->
  exists d ds,
    digits_fuel fuel n acc = d :: ds ++ acc
    /\ forallb Json.isdigit (d :: ds) = true
    /\ Json.N_of_digits (d :: ds) = n
    /\ (n = 0 -> d = 48 /\ ds = [])
    /\ (n <> 0 -> 49 <= d).
Proof.
  induction fuel as [|fuel IH]; intros n acc Hpos Hn.
  - lia.
  - cbn [digits_fuel]. cbv zeta.
    destruct (N.ltb_spec n 10) as [L|L].
    + exists (48 + n mod 10), [].
      replace (n mod 10) with n by dlia.
      split; [reflexivity|]. split; [|split; [|split]].
      * cbn [forallb]. now rewrite isdigit_digit.
      * unfold Json.N_of_digits. cbn [fold_left]. lia.
      * intros ->. split; reflexivity.
      * intros Hz. lia.
    + assert (Hf : n / 10 < 2 ^ N.of_nat fuel).
      { rewrite Nat2N.inj_succ, N.pow_succ_r' in Hn. dlia. }
      assert (Hp : (0 < fuel)%nat).
      { destruct fuel; [|lia]. simpl in Hn. lia. }
      destruct (IH (n / 10) ((48 + n mod 10) :: acc) Hp Hf)
        as (d & ds & E & D & V & _ & NZ).
      exists d, (ds ++ [48 + n mod 10]).
      split; [|split; [|split; [|split]]].
      * rewrite E. cbn [app]. now rewrite <- app_assoc.
      * change (d :: ds ++ [48 + n mod 10])
          with ((d :: ds) ++ [48 + n mod 10]).
        rewrite forallb_app, D. cbn [forallb].
        rewrite isdigit_digit by dlia. reflexivity.
      * change (d :: ds ++ [48 + n mod 10])
          with ((d :: ds) ++ [48 + n mod 10]).
        rewrite N_of_digits_snoc, V. dlia.
      * intros ->. lia.
      * intros _. apply NZ. dlia.
Qed.

Lemma str_of_N_spec n :
  exists d ds,
    str_of_N n = d :: ds
    /\ forallb Json.isdigit (d :: ds) = true
    /\ Json.N_of_digits (d :: ds) = n
    /\ (n = 0 -> d = 48 /\ ds = [])
    /\ (n <> 0 -> 49 <= d).
Proof.
  assert (B : n < 2 ^ N.of_nat (S (N.to_nat (N.log2 n)))).
  { rewrite Nat2N.inj_succ, N2Nat.id.
    destruct (N.eq_dec n 0) as [->|Hz]; [reflexivity|].
    apply N.log2_spec. lia. }
  destruct (digits_fuel_spec (S (N.to_nat (N.log2 n))) n []
                             (Nat.lt_0_succ _) B) as (d & ds & E & R).
  exists d, ds. split; [|exact R].
  unfold str_of_N. rewrite E. now rewrite app_nil_r.
Qed.

Lemma ends_number_not_digit c rest :
  ends_number (c :: rest) = true ->
  Json.isdigit c = false /\ (c =? 46) = false /\ (c =? 101) = false
  /\ (c =? 69) = false /\ (c =? 43) = false /\ (c =? 45) = false.
Proof.
  cbn [ends_number]. intros H. apply negb_true_iff in H.
  repeat (apply orb_false_iff in H; destruct H as [H ?]). auto 10.
Qed.

Lemma span_digits_app s rest d r :
  ends_number rest = true ->
  Json.span_digits s = (d, r) ->
  Json.span_digits (s ++ rest) = (d, r ++ rest).
Proof.
  intros He. revert d r. induction s as [|c s IH]; intros d r H.
  - cbn in H. injection H as <- <-. cbn [app].
    destruct rest as [|c rest]; [reflexivity|].
    destruct (ends_number_not_digit _ _ He) as (D & _).
    cbn [Json.span_digits]. now rewrite D.
  - cbn [app Json.span_digits] in *. destruct (Json.isdigit c).
    + destruct (Json.span_digits s) as [d' r'].
      injection H as <- <-. now rewrite (IH d' r' eq_refl).
    + injection H as <- <-. reflexivity.
Qed.

Lemma span_digits_all ds :
  forallb Json.isdigit ds = true -> Json.span_digits ds = (ds, []).
Proof.
  induction ds as [|c ds IH]; cbn [forallb Json.span_digits]; intros H.
  - reflexivity.
  - apply andb_true_iff in H as [Hc Hd]. rewrite Hc, (IH Hd). reflexivity.
Qed.

Lemma match_frac_app s rest f r :
  ends_number rest = true ->
  Json.match_frac s = (f, r) ->
  Json.match_frac (s ++ rest) = (f, r ++ rest).
Proof.
  intros He H. destruct s as [|c [|d s]].
  - cbn in H. injection H as <- <-. cbn [app].
    destruct rest as [|c [|d rest]]; try reflexivity.
    destruct (ends_number_not_digit _ _ He) as (_ & P & _).
    cbn [Json.match_frac]. now rewrite P.
  - cbn in H. injection H as <- <-. cbn [app].
    destruct rest as [|d rest]; [reflexivity|].
    destruct (ends_number_not_digit _ _ He) as (D & _).
    cbn [Json.match_frac]. rewrite D, andb_false_r. reflexivity.
  - cbn [app Json.match_frac] in *.
    destruct ((c =? 46) && Json.isdigit d).
    + destruct (Json.span_digits (d :: s)) as [ds r'] eqn:E.
      injection H as <- <-.
      change (d :: s ++ rest) with ((d :: s) ++ rest).
      now rewrite (span_digits_app _ _ _ _ He E).
    + injection H as <- <-. reflexivity.
Qed.

Lemma span_digits_none_app s rest r :
  ends_number rest = true ->
  Json.span_digits s = ([], r) ->
  Json.span_digits (s ++ rest) = ([], s ++ rest).
Proof.
  intros He H. rewrite (span_digits_app _ _ _ _ He H).
  destruct s as [|c s]; cbn in H.
  - now injection H as <-.
  - destruct (Json.isdigit c).
    + destruct (Json.span_digits s). discriminate.
    + now injection H as <-.
Qed.

Lemma match_exp_app s rest e r :
  ends_number rest = true ->
  Json.match_exp s = (e, r) ->
  Json.match_exp (s ++ rest) = (e, r ++ rest).
Proof.
  intros He H. destruct s as [|c s1].
  - cbn in H. injection H as <- <-. cbn [app].
    destruct rest as [|c rest]; [reflexivity|].
    destruct (ends_number_not_digit _ _ He) as (_ & _ & P1 & P2 & _).
    cbn [Json.match_exp]. now rewrite P1, P2.
  - cbn [app Json.match_exp] in *.
    destruct ((c =? 101) || (c =? 69)); [|now injection H as <- <-].
    destruct s1 as [|g s2].
    + injection H as <- <-. cbn [app].
      destruct rest as [|g rest]; [reflexivity|].
      destruct (ends_number_not_digit _ _ He) as (D & _ & _ & _ & P1 & P2).
      rewrite P1, P2. cbn [orb Json.span_digits]. now rewrite D.
    + cbn [app]. destruct ((g =? 45) || (g =? 43)).
      * destruct (Json.span_digits s2) as [[|x ds] r'] eqn:E.
        -- injection H as <- <-.
           now rewrite (span_digits_none_app _ _ _ He E).
        -- injection H as <- <-.
           now rewrite (span_digits_app _ _ _ _ He E).
      * destruct (Json.span_digits (g :: s2)) as [[|x ds] r'] eqn:E.
        -- injection H as <- <-.
           change (g :: s2 ++ rest) with ((g :: s2) ++ rest).
           now rewrite (span_digits_none_app _ _ _ He E).
        -- injection H as <- <-.
           change (g :: s2 ++ rest) with ((g :: s2) ++ rest).
           now rewrite (span_digits_app _ _ _ _ He E).
Qed.

Lemma match_integer_app s rest i r :
  ends_number rest = true ->
  Json.match_integer s = Some (i, r) ->
  Json.match_integer (s ++ rest) = Some (i, r ++ rest).
Proof.
  intros He.
  assert (B : forall sign s1,
             match s1 with
             | c :: s2 =>
                 if (49 <=? c) && (c <=? 57)
                 then let (ds, r) := Json.span_digits s2 in
                      Some (sign ++ c :: ds, r)
                 else if c =? 48 then Some (sign ++ [c], s2) else None
             | [] => None
             end = Some (i, r) ->
             match s1 ++ rest with
             | c :: s2 =>
                 if (49 <=? c) && (c <=? 57)
                 then let (ds, r) := Json.span_digits s2 in
                      Some (sign ++ c :: ds, r)
                 else if c =? 48 then Some (sign ++ [c], s2) else None
             | [] => None
             end = Some (i, r ++ rest)).
  { intros sign [|c s2] H; [discriminate|]. cbn [app].
    destruct ((49 <=? c) && (c <=? 57)).
    - destruct (Json.span_digits s2) as [ds r'] eqn:E.
      injection H as <- <-. now rewrite (span_digits_app _ _ _ _ He E).
    - destruct (c =? 48); [|discriminate]. now injection H as <- <-. }
  unfold Json.match_integer. destruct s as [|c s1]; [discriminate|].
  cbn [app]. destruct (c =? 45).
  - exact (B [c] s1).
  - exact (B [] (c :: s1)).
Qed.

(** A number is read the same when the text goes on with something that
    cannot belong to it. *)
Lemma match_number_app s rest v r :
  ends_number rest = true ->
  Json.match_number s = Some (v, r) ->
  Json.match_number (s ++ rest) = Some (v, r ++ rest).
Proof.
  intros He. unfold Json.match_number.
  destruct (Json.match_integer s) as [[i r0]|] eqn:EI; [|discriminate].
  rewrite (match_integer_app _ _ _ _ He EI).
  destruct (Json.match_frac r0) as [f r1] eqn:EF.
  rewrite (match_frac_app _ _ _ _ He EF).
  destruct (Json.match_exp r1) as [e r2] eqn:EE.
  rewrite (match_exp_app _ _ _ _ He EE).
  destruct f, e; intros H; injection H as <- <-; reflexivity.
Qed.

Lemma isdigit_bounds c : Json.isdigit c = true -> 48 <= c /\ c <= 57.
Proof.
  unfold Json.isdigit. intros H. apply andb_true_iff in H as [H1 H2].
  apply N.leb_le in H1, H2. auto.
Qed.

(** The decimal text of a positive number, with or without a minus sign,
    is matched whole as the integer part of a number. *)
Lemma match_integer_N n :
  n <> 0 ->
  Json.match_integer (str_of_N n) = Some (str_of_N n, [])
  /\ Json.match_integer (45 :: str_of_N n) = Some (45 :: str_of_N n, [])
  /\ Json.N_of_digits (str_of_N n) = n
  /\ exists d ds, str_of_N n = d :: ds /\ 49 <= d /\ d <= 57.
Proof.
  intros Hz. destruct (str_of_N_spec n) as (d & ds & E & D & V & _ & NZ).
  specialize (NZ Hz). rewrite E.
  cbn [forallb] in D. apply andb_true_iff in D as [Dd Dds].
  destruct (isdigit_bounds d Dd) as [_ U].
  assert (R : (49 <=? d) && (d <=? 57) = true)
    by (apply andb_true_iff; split; apply N.leb_le; lia).
  assert (M : (d =? 45) = false) by (apply N.eqb_neq; lia).
  split; [|split; [|split; [exact V|exists d, ds; auto]]].
  - unfold Json.match_integer. cbv beta iota zeta.
    rewrite M, R, (span_digits_all ds Dds). reflexivity.
  - unfold Json.match_integer. cbv beta iota zeta. cbn [N.eqb Pos.eqb].
    rewrite R, (span_digits_all ds Dds). reflexivity.
Qed.

Lemma match_number_int z :
  Json.match_number (str_of_Z z) = Some (Json.JInt z, []).
Proof.
  destruct z as [|p|p].
  - reflexivity.
  - destruct (match_integer_N (N.pos p) ltac:(discriminate))
      as (M & _ & V & d & ds & E & L & U).
    unfold Json.match_number.
    change (str_of_Z (Z.pos p)) with (str_of_N (N.pos p)).
    rewrite M. cbn [Json.match_frac Json.match_exp].
    unfold Json.int_of_text. rewrite E in *.
    replace (d =? 45) with false by (symmetry; apply N.eqb_neq; lia).
    rewrite V. reflexivity.
  - destruct (match_integer_N (N.pos p) ltac:(discriminate))
      as (_ & M & V & _).
    unfold Json.match_number.
    change (str_of_Z (Z.neg p)) with (45 :: str_of_N (N.pos p)).
    rewrite M. cbn [Json.match_frac Json.match_exp].
    unfold Json.int_of_text. cbn [N.eqb Pos.eqb]. rewrite V. reflexivity.
Qed.

(** What a matched number starts with. *)
Lemma match_number_head s v r :
  Json.match_number s = Some (v, r) ->
  exists c tl, s = c :: tl /\ (c = 45 \/ (48 <= c /\ c <= 57)).
Proof.
  unfold Json.match_number, Json.match_integer.
  destruct s as [|c s1]; [discriminate|]. intros H.
  exists c, s1. split; [reflexivity|].
  destruct (N.eqb_spec c 45) as [->|N45]; [now left|]. right.
  destruct ((49 <=? c) && (c <=? 57)) eqn:R.
  - apply andb_true_iff in R as [R1 R2]. apply N.leb_le in R1, R2. lia.
  - destruct (N.eqb_spec c 48) as [->|N48]; [lia|discriminate].
Qed.

(** scan_once on a number. *)
Lemma scan_once_number fuel s v r :
  Json.match_number s = Some (v, r) ->
  Json.scan_once (S fuel) s = inr (v, r).
Proof.
  intros M. destruct (match_number_head s v r M) as (c & tl & -> & Hc).
  cbn [Json.scan_once].
  assert (E : (c =? 34) = false /\ (c =? 123) = false /\ (c =? 91) = false
              /\ (110 =? c) = false /\ (116 =? c) = false
              /\ (102 =? c) = false).
  { repeat split; apply N.eqb_neq; lia. }
  destruct E as (E1 & E2 & E3 & E4 & E5 & E6).
  assert (S1 : Codec.startswith (lit "null") (c :: tl) = false).
  { change (lit "null") with [110; 117; 108; 108].
    cbn [Codec.startswith]. now rewrite E4. }
  assert (S2 : Codec.startswith (lit "true") (c :: tl) = false).
  { change (lit "true") with [116; 114; 117; 101].
    cbn [Codec.startswith]. now rewrite E5. }
  assert (S3 : Codec.startswith (lit "false") (c :: tl) = false).
  { change (lit "false") with [102; 97; 108; 115; 101].
    cbn [Codec.startswith]. now rewrite E6. }
  assert (A : Json.scan_atom (c :: tl) = Some (v, r)).
  { unfold Json.scan_atom, Json.literal. rewrite S1, S2, S3, M.
    reflexivity. }
  rewrite E1, E2, E3, A. reflexivity.
Qed.

(** ** Reading back what the encoder writes *)

(** Induction on JSON values, with the property for the items of a list and
    the values of a dict. *)
Lemma json_nested_ind (P : Json.json -> Prop) :
  P Json.JNull ->
  (forall b, P (Json.JBool b)) ->
  (forall z, P (Json.JInt z)) ->
  (forall t, P (Json.JFloat t)) ->
  (forall s, P (Json.JStr s)) ->
  (forall l, Forall P l -> P (Json.JList l)) ->
  (forall d, Forall (fun kv => P (snd kv)) d -> P (Json.JDict d)) ->
  forall v, P v.
Proof.
  intros HN HB HI HF HS HL HD.
  fix IH 1. intros [ | b | z | t | s | l | d ].
  - exact HN.
  - apply HB.
  - apply HI.
  - apply HF.
  - apply HS.
  - apply HL. induction l as [|x l IHl]; constructor; [apply IH | exact IHl].
  - apply HD. induction d as [|[k x] d IHd]; constructor;
      [apply IH | exact IHd].
Qed.

Lemma not_ws c : c <> 32 -> c <> 9 -> c <> 10 -> c <> 13 -> Json.is_ws c = false.
Proof.
  intros. unfold Json.is_ws.
  repeat (rewrite (proj2 (N.eqb_neq _ _)) by assumption). reflexivity.
Qed.

Lemma skip_ws_ws w s :
  forallb Json.is_ws w = true -> Json.skip_ws (w ++ s) = Json.skip_ws s.
Proof.
  induction w as [|c w IH]; [reflexivity|].
  cbn [forallb app Json.skip_ws]. intros H.
  apply andb_true_iff in H as [-> H]. auto.
Qed.

Lemma skip_ws_stop c s : Json.is_ws c = false -> Json.skip_ws (c :: s) = c :: s.
Proof. intros H. cbn [Json.skip_ws]. now rewrite H. Qed.

Lemma delimited_ends rest : delimited rest = true -> ends_number rest = true.
Proof.
  destruct rest as [|c rest]; [reflexivity|].
  unfold delimited, ends_number, Json.is_ws, Json.isdigit.
  destruct (N.eqb_spec c 44) as [->|]; [reflexivity|].
  destruct (N.eqb_spec c 93) as [->|]; [reflexivity|].
  destruct (N.eqb_spec c 125) as [->|]; [reflexivity|].
  destruct (N.eqb_spec c 32) as [->|]; [reflexivity|].
  destruct (N.eqb_spec c 9) as [->|]; [reflexivity|].
  destruct (N.eqb_spec c 10) as [->|]; [reflexivity|].
  destruct (N.eqb_spec c 13) as [->|]; [reflexivity|].
  discriminate.
Qed.

Lemma delimited_ws w rest :
  forallb Json.is_ws w = true -> delimited rest = true ->
  delimited (w ++ rest) = true.
Proof.
  destruct w as [|c w]; [auto|]. cbn [app forallb delimited]. intros H _.
  apply andb_true_iff in H as [-> _]. now rewrite !orb_true_r.
Qed.

(** A number is read whole when what follows cannot continue it. *)
Lemma scan_once_number_app fuel s v rest :
  (0 < fuel)%nat -> Json.match_number s = Some (v, []) ->
  delimited rest = true ->
  Json.scan_once fuel (s ++ rest) = inr (v, rest).
Proof.
  intros Hf M D. destruct fuel as [|f]; [lia|].
  apply (scan_once_number f (s ++ rest) v rest).
  exact (match_number_app s rest v [] (delimited_ends rest D) M).
Qed.

Lemma wf_float_match t :
  Issuer.wf_float t = true -> Json.match_number t = Some (Json.JFloat t, []).
Proof.
  unfold Issuer.wf_float.
  destruct (Json.match_number t) as [[v r]|]; [|discriminate].
  destruct v; try discriminate. destruct r; try discriminate.
  destruct (list_eq_dec N.eq_dec text t) as [->|]; [reflexivity|discriminate].
Qed.

(** A string literal is read back as the string. *)
Lemma scan_once_string fuel s rest :
  Issuer.wf_str s = true ->
  Json.scan_once (S fuel) (Encoder.encode_basestring_ascii s ++ rest)
  = inr (Json.JStr s, rest).
Proof.
  intros H. unfold Encoder.encode_basestring_ascii.
  cbn [app]. rewrite <- app_assoc. cbn [app].
  cbn [Json.scan_once N.eqb Pos.eqb].
  now rewrite scanstring_encoded.
Qed.

Lemma starts_value_app s r :
  starts_value s = true -> starts_value (s ++ r) = true.
Proof. destruct s; [discriminate|auto]. Qed.

Lemma starts_value_skip s : starts_value s = true -> Json.skip_ws s = s.
Proof.
  destruct s as [|c s]; [reflexivity|]. cbn [starts_value Json.skip_ws].
  destruct (Json.is_ws c); [discriminate|reflexivity].
Qed.

Lemma starts_value_not_close s :
  starts_value s = true ->
  exists c tl, s = c :: tl /\ (c =? 93) = false.
Proof.
  destruct s as [|c s]; [discriminate|]. cbn [starts_value]. intros H.
  exists c, s. split; [reflexivity|].
  destruct (c =? 93); [|reflexivity].
  now rewrite orb_true_r in H.
Qed.

(** The steps of the array and object parsers. *)
Lemma scan_once_array fuel w s :
  forallb Json.is_ws w = true -> starts_value s = true ->
  Json.scan_once (S fuel) (91 :: w ++ s)
  = match Json.parse_elements fuel s with
    | inl e => inl e
    | inr (vs, r) => inr (Json.JList vs, r)
    end.
Proof.
  intros Hw Hs. cbn [Json.scan_once N.eqb Pos.eqb].
  rewrite (skip_ws_ws w _ Hw), (starts_value_skip s Hs).
  destruct (starts_value_not_close s Hs) as (c & tl & -> & ->).
  reflexivity.
Qed.

Lemma scan_once_object fuel w s :
  forallb Json.is_ws w = true -> hd 0 s = 34 ->
  Json.scan_once (S fuel) (123 :: w ++ s)
  = match Json.parse_members fuel s with
    | inl e => inl e
    | inr (pairs, r) => inr (Json.JDict (Json.dict_of_pairs pairs), r)
    end.
Proof.
  intros Hw Hs. destruct s as [|c tl]; [discriminate|].
  cbn [hd] in Hs. subst c. cbn [Json.scan_once N.eqb Pos.eqb].
  rewrite (skip_ws_ws w _ Hw), (skip_ws_stop 34 tl eq_refl).
  reflexivity.
Qed.

Lemma parse_elements_last fuel s v w rest :
  Json.scan_once fuel s = inr (v, w ++ 93 :: rest) ->
  forallb Json.is_ws w = true ->
  Json.parse_elements (S fuel) s = inr ([v], rest).
Proof.
  intros H Hw. cbn [Json.parse_elements]. rewrite H.
  rewrite (skip_ws_ws w _ Hw), (skip_ws_stop 93 rest eq_refl).
  reflexivity.
Qed.

Lemma parse_elements_more fuel s v w s' vs rest :
  Json.scan_once fuel s = inr (v, (44 :: w) ++ s') ->
  forallb Json.is_ws w = true -> starts_value s' = true ->
  Json.parse_elements fuel s' = inr (vs, rest) ->
  Json.parse_elements (S fuel) s = inr (v :: vs, rest).
Proof.
  intros H Hw Hs P. cbn [Json.parse_elements]. rewrite H. cbn [app].
  rewrite (skip_ws_stop 44 _ eq_refl). cbn [N.eqb Pos.eqb].
  rewrite (skip_ws_ws w _ Hw), (starts_value_skip s' Hs), P.
  reflexivity.
Qed.

Lemma parse_members_key fuel k kws s :
  Issuer.wf_str k = true -> forallb Json.is_ws kws = true ->
  starts_value s = true ->
  Json.parse_members (S fuel)
    (Encoder.encode_basestring_ascii k ++ (58 :: kws) ++ s)
  = match Json.scan_once fuel s with
    | inl e => inl e
    | inr (v, r4) =>
        match Json.skip_ws r4 with
        | c3 :: r6 =>
            if c3 =? 125 then inr ([(k, v)], r6)
            else if c3 =? 44 then
              match Json.parse_members fuel (Json.skip_ws r6) with
              | inl e => inl e
              | inr (ps, r7) => inr ((k, v) :: ps, r7)
              end
            else inl (Json.SyntaxError "Expecting ',' delimiter"
                                       (Json.skip_ws r4))
        | [] => inl (Json.SyntaxError "Expecting ',' delimiter" [])
        end
    end.
Proof.
  intros Wk Hk Hs. unfold Encoder.encode_basestring_ascii.
  cbn [app]. rewrite <- app_assoc. cbn [app].
  cbn [Json.parse_members N.eqb Pos.eqb].
  rewrite (scanstring_encoded _ k _ Wk).
  rewrite (skip_ws_stop 58 _ eq_refl). cbn [N.eqb Pos.eqb].
  rewrite (skip_ws_ws kws _ Hk), (starts_value_skip s Hs).
  reflexivity.
Qed.

Lemma parse_members_last fuel k kws s v w rest :
  Issuer.wf_str k = true -> forallb Json.is_ws kws = true ->
  starts_value s = true ->
  Json.scan_once fuel s = inr (v, w ++ 125 :: rest) ->
  forallb Json.is_ws w = true ->
  Json.parse_members (S fuel)
    (Encoder.encode_basestring_ascii k ++ (58 :: kws) ++ s)
  = inr ([(k, v)], rest).
Proof.
  intros Wk Hk Hs H Hw. rewrite parse_members_key, H by assumption.
  rewrite (skip_ws_ws w _ Hw), (skip_ws_stop 125 rest eq_refl).
  reflexivity.
Qed.

Lemma parse_members_more fuel k kws s v w s' ps rest :
  Issuer.wf_str k = true -> forallb Json.is_ws kws = true ->
  starts_value s = true ->
  Json.scan_once fuel s = inr (v, (44 :: w) ++ s') ->
  forallb Json.is_ws w = true -> hd 0 s' = 34 ->
  Json.parse_members fuel s' = inr (ps, rest) ->
  Json.parse_members (S fuel)
    (Encoder.encode_basestring_ascii k ++ (58 :: kws) ++ s)
  = inr ((k, v) :: ps, rest).
Proof.
  intros Wk Hk Hs H Hw Hs' P. rewrite parse_members_key, H by assumption.
  destruct s' as [|c tl']; [discriminate|]. cbn [hd] in Hs'. subst c.
  cbn [app]. rewrite (skip_ws_stop 44 _ eq_refl). cbn [N.eqb Pos.eqb].
  rewrite (skip_ws_ws w _ Hw), (skip_ws_stop 34 tl' eq_refl), P.
  reflexivity.
Qed.

(** The text of a non-empty list and of a non-empty dict. *)
Lemma iterencode_list f ind isep ksep level x l :
  Encoder.iterencode f ind isep ksep level (Json.JList (x :: l))
  = 91 :: Encoder.newline_indent ind (S level)
    ++ Encoder.join (isep ++ Encoder.newline_indent ind (S level))
         (map (Encoder.iterencode f ind isep ksep (S level)) (x :: l))
    ++ Encoder.newline_indent ind level ++ [93].
Proof. reflexivity. Qed.

Lemma iterencode_dict f ind isep ksep level kv d :
  Encoder.iterencode f ind isep ksep level (Json.JDict (kv :: d))
  = 123 :: Encoder.newline_indent ind (S level)
    ++ Encoder.join (isep ++ Encoder.newline_indent ind (S level))
         (map (fun kv : str * Json.json =>
                 let (k, v) := kv in
                 Encoder.encode_basestring_ascii k ++ ksep
                 ++ Encoder.iterencode f ind isep ksep (S level) v) (kv :: d))
    ++ Encoder.newline_indent ind level ++ [125].
Proof. reflexivity. Qed.

Lemma iterencode_list_app f ind isep ksep level x l rest :
  Encoder.iterencode f ind isep ksep level (Json.JList (x :: l)) ++ rest
  = 91 :: Encoder.newline_indent ind (S level)
    ++ (Encoder.join (isep ++ Encoder.newline_indent ind (S level))
          (map (Encoder.iterencode f ind isep ksep (S level)) (x :: l))
        ++ Encoder.newline_indent ind level ++ 93 :: rest).
Proof.
  rewrite iterencode_list. cbn [app]. now rewrite <- !app_assoc.
Qed.

Lemma iterencode_dict_app f ind isep ksep level kv d rest :
  Encoder.iterencode f ind isep ksep level (Json.JDict (kv :: d)) ++ rest
  = 123 :: Encoder.newline_indent ind (S level)
    ++ (Encoder.join (isep ++ Encoder.newline_indent ind (S level))
          (map (fun kv : str * Json.json =>
                  let (k, v) := kv in
                  Encoder.encode_basestring_ascii k ++ ksep
                  ++ Encoder.iterencode f ind isep ksep (S level) v) (kv :: d))
        ++ Encoder.newline_indent ind level ++ 125 :: rest).
Proof.
  rewrite iterencode_dict. cbn [app]. now rewrite <- !app_assoc.
Qed.

Lemma join_cons sep x y l :
  Encoder.join sep (x :: y :: l) = x ++ sep ++ Encoder.join sep (y :: l).
Proof. reflexivity. Qed.

Lemma join_starts sep x l :
  starts_value x = true -> starts_value (Encoder.join sep (x :: l)) = true.
Proof.
  intros H. destruct l as [|y l]; [exact H|].
  rewrite join_cons. now apply starts_value_app.
Qed.

Lemma newline_indent_ws ind level :
  (forall u, ind = Some u -> forallb Json.is_ws u = true) ->
  forallb Json.is_ws (Encoder.newline_indent ind level) = true.
Proof.
  intros H. unfold Encoder.newline_indent.
  destruct ind as [u|]; [|reflexivity].
  specialize (H u eq_refl). cbn [app forallb].
  change (Json.is_ws 10) with true. cbn [andb].
  induction level as [|n IH]; [reflexivity|].
  cbn [repeat concat]. now rewrite forallb_app, H, IH.
Qed.

Lemma number_starts s v r :
  Json.match_number s = Some (v, r) -> starts_value s = true.
Proof.
  intros M. destruct (match_number_head s v r M) as (c & tl & -> & Hc).
  cbn [starts_value]. rewrite not_ws by lia.
  rewrite (proj2 (N.eqb_neq c 93)) by lia.
  rewrite (proj2 (N.eqb_neq c 125)) by lia. reflexivity.
Qed.

(** The text of a value starts a value. *)
Lemma iterencode_starts ind isep ksep level v :
  Issuer.wf_json v = true ->
  starts_value (Encoder.iterencode (fun t => t) ind isep ksep level v) = true.
Proof.
  intros W. destruct v as [ | b | z | t | s | l | d ].
  - reflexivity.
  - destruct b; reflexivity.
  - exact (number_starts _ _ _ (match_number_int z)).
  - exact (number_starts _ _ _ (wf_float_match t W)).
  - reflexivity.
  - destruct l; reflexivity.
  - destruct d; reflexivity.
Qed.

(** dict(pairs) keeps pairs whose keys are distinct. *)
Lemma distinct_NoDup keys : Issuer.distinct keys = true -> NoDup keys.
Proof.
  induction keys as [|k keys IH]; [constructor|].
  cbn [Issuer.distinct]. intros H. apply andb_true_iff in H as [H1 H2].
  constructor; [|auto]. intros I.
  apply negb_true_iff in H1.
  assert (E : existsb (fun k' => if list_eq_dec N.eq_dec k k' then true
                                 else false) keys = true).
  { apply existsb_exists. exists k. split; [exact I|].
    destruct (list_eq_dec N.eq_dec k k); congruence. }
  congruence.
Qed.

Lemma dict_set_fresh k v d :
  ~ In k (map fst d) -> Json.dict_set k v d = d ++ [(k, v)].
Proof.
  induction d as [|[k' v'] d IH]; [reflexivity|].
  cbn [map fst In Json.dict_set app]. intros H.
  destruct (list_eq_dec N.eq_dec k k') as [->|_]; [tauto|].
  rewrite IH; [reflexivity|tauto].
Qed.

Lemma dict_of_pairs_distinct d :
  Issuer.distinct (map fst d) = true -> Json.dict_of_pairs d = d.
Proof.
  intros H. apply distinct_NoDup in H. unfold Json.dict_of_pairs.
  change d with ([] ++ d) in H at 1.
  change d with ([] ++ d) at 2.
  generalize dependent (@nil (str * Json.json)).
  induction d as [|[k v] d IH]; intros acc H.
  - now rewrite app_nil_r.
  - cbn [fold_left fst snd]. rewrite dict_set_fresh.
    + rewrite IH; rewrite <- app_assoc; [reflexivity|exact H].
    + rewrite map_app in H. cbn [map fst] in H.
      apply NoDup_remove_2 in H. rewrite in_app_iff in H. tauto.
Qed.

Section ReadBack.

(** The layout: the indentation unit, if any, and what follows the colon
    of a member are white space; items are separated by a comma. *)
Variable indent : option str.
Variable kws : str.
Hypothesis indent_ws :
  forall u, indent = Some u -> forallb Json.is_ws u = true.
Hypothesis kws_ws : forallb Json.is_ws kws = true.

Local Notation ser :=
  (Encoder.iterencode (fun t : str => t) indent [44] (58 :: kws)).
Local Notation nl := (Encoder.newline_indent indent).
Local Notation member level :=
  (fun kv : str * Json.json =>
     let (k, v) := kv in
     Encoder.encode_basestring_ascii k ++ (58 :: kws) ++ ser level v).
Local Notation reads_back x :=
  (forall level fuel rest,
      Nat.le (length (ser level x)) fuel -> delimited rest = true ->
      Json.scan_once fuel (ser level x ++ rest) = inr (x, rest)).

Lemma parse_elements_ser level l :
  Forall (fun x => reads_back x) l -> forallb Issuer.wf_json l = true ->
  l <> [] ->
  forall fuel w rest,
    forallb Json.is_ws w = true ->
    Nat.lt (length (Encoder.join ([44] ++ nl level) (map (ser level) l)))
           fuel ->
    Json.parse_elements fuel
      (Encoder.join ([44] ++ nl level) (map (ser level) l) ++ w ++ 93 :: rest)
    = inr (l, rest).
Proof.
  intros HF HW. induction l as [|x l IH]; [congruence|].
  intros _ fuel w rest Hw Hf.
  apply Forall_cons_iff in HF as [Hx HF].
  cbn [forallb] in HW. apply andb_true_iff in HW as [Wx Wl].
  destruct fuel as [|f]; [lia|].
  destruct l as [|y l'].
  - cbn [map Encoder.join] in *.
    apply (parse_elements_last f _ x w rest); [|exact Hw].
    apply Hx; [lia|]. now apply delimited_ws.
  - specialize (IH HF Wl ltac:(discriminate) f w rest Hw).
    cbn [forallb] in Wl. apply andb_true_iff in Wl as [Wy _].
    remember (y :: l') as l eqn:El.
    assert (Hs : starts_value
                   (Encoder.join ([44] ++ nl level) (map (ser level) l)
                    ++ w ++ 93 :: rest) = true).
    { subst l. cbn [map]. apply starts_value_app, join_starts.
      now apply iterencode_starts. }
    assert (EJ : Encoder.join ([44] ++ nl level) (map (ser level) (x :: l))
                 = ser level x ++ ([44] ++ nl level)
                   ++ Encoder.join ([44] ++ nl level) (map (ser level) l)).
    { subst l. reflexivity. }
    rewrite EJ in Hf |- *. clear EJ El.
    rewrite !length_app in Hf. cbn [length] in Hf.
    rewrite <- !app_assoc.
    eapply (parse_elements_more f _ x (nl level)).
    + apply Hx; [lia|reflexivity].
    + now apply newline_indent_ws.
    + exact Hs.
    + apply IH. lia.
Qed.

Lemma parse_members_ser level d :
  Forall (fun kv : str * Json.json => reads_back (snd kv)) d ->
  forallb (fun kv : str * Json.json =>
             let (k, x) := kv in Issuer.wf_str k && Issuer.wf_json x) d = true ->
  d <> [] ->
  forall fuel w rest,
    forallb Json.is_ws w = true ->
    Nat.lt (length (Encoder.join ([44] ++ nl level) (map (member level) d)))
           fuel ->
    Json.parse_members fuel
      (Encoder.join ([44] ++ nl level) (map (member level) d)
       ++ w ++ 125 :: rest)
    = inr (d, rest).
Proof.
  intros HF HW. induction d as [|[k x] d IH]; [congruence|].
  intros _ fuel w rest Hw Hf.
  apply Forall_cons_iff in HF as [Hx HF]. cbn [snd] in Hx.
  cbn [forallb] in HW. apply andb_true_iff in HW as [Wx Wd].
  apply andb_true_iff in Wx as [Wk Wx].
  destruct fuel as [|f]; [lia|].
  destruct d as [|kv d'].
  - cbn [map Encoder.join] in *.
    rewrite !length_app in Hf. cbn [length] in Hf.
    rewrite <- !app_assoc.
    apply (parse_members_last f k kws _ x w rest); auto.
    + apply starts_value_app. now apply iterencode_starts.
    + apply Hx; [lia|]. now apply delimited_ws.
  - specialize (IH HF Wd ltac:(discriminate) f w rest Hw).
    remember (kv :: d') as d eqn:Ed.
    assert (Hs : hd 0 (Encoder.join ([44] ++ nl level) (map (member level) d)
                       ++ w ++ 125 :: rest) = 34).
    { subst d. destruct kv, d'; reflexivity. }
    assert (EJ : Encoder.join ([44] ++ nl level)
                   (map (member level) ((k, x) :: d))
                 = (Encoder.encode_basestring_ascii k ++ (58 :: kws)
                    ++ ser level x) ++ ([44] ++ nl level)
                   ++ Encoder.join ([44] ++ nl level) (map (member level) d)).
    { subst d. reflexivity. }
    rewrite EJ in Hf |- *. clear EJ Ed.
    rewrite !length_app in Hf. cbn [length] in Hf.
    rewrite <- !app_assoc.
    eapply (parse_members_more f k kws _ x (nl level)); auto.
    + apply starts_value_app. now apply iterencode_starts.
    + apply Hx; [lia|reflexivity].
    + now apply newline_indent_ws.
    + exact Hs.
    + apply IH. lia.
Qed.

(** What the encoder writes for a value, read by scan_once, is the value;
    the text that follows is left over.  The fuel covers the text. *)
Lemma scan_once_ser v : Issuer.wf_json v = true -> reads_back v.
Proof.
  induction v as [ | b | z | t | s | l IH | d IH ] using json_nested_ind;
    intros W level fuel rest Hf D.
  - destruct fuel as [|f]; [cbn in Hf; lia|reflexivity].
  - destruct b; (destruct fuel as [|f]; [cbn in Hf; lia|reflexivity]).
  - pose proof (iterencode_starts indent [44] (58 :: kws) level _ W) as Hs.
    cbn [Encoder.iterencode] in *.
    apply scan_once_number_app; [|apply match_number_int|exact D].
    destruct (str_of_Z z); [discriminate|]. cbn [length] in Hf. lia.
  - pose proof (iterencode_starts indent [44] (58 :: kws) level _ W) as Hs.
    cbn [Encoder.iterencode] in *.
    apply scan_once_number_app; [|now apply wf_float_match|exact D].
    destruct t; [discriminate|]. cbn [length] in Hf. lia.
  - cbn [Encoder.iterencode] in *.
    destruct fuel as [|f]; [cbn in Hf; lia|]. now apply scan_once_string.
  - destruct l as [|x l].
    { destruct fuel as [|f]; [cbn in Hf; lia|reflexivity]. }
    rewrite iterencode_list_app. rewrite iterencode_list in Hf.
    cbn [Issuer.wf_json] in W.
    cbn [length] in Hf. rewrite !length_app in Hf. cbn [length] in Hf.
    destruct fuel as [|f]; [lia|].
    rewrite scan_once_array.
    + assert (R : Forall (fun x => reads_back x) (x :: l)).
      { clear Hf. revert W. induction IH as [|y l' Hy _ IHl]; intros W;
          [constructor|].
        cbn [forallb] in W. apply andb_true_iff in W as [Wy Wl].
        constructor; auto. }
      rewrite (parse_elements_ser (S level) (x :: l) R W
                 ltac:(discriminate) f (nl level) rest
                 (newline_indent_ws _ _ indent_ws)); [reflexivity|lia].
    + now apply newline_indent_ws.
    + apply starts_value_app, join_starts. apply iterencode_starts.
      cbn [forallb] in W. now apply andb_true_iff in W as [W _].
  - destruct d as [|kv d].
    { destruct fuel as [|f]; [cbn in Hf; lia|reflexivity]. }
    rewrite iterencode_dict_app. rewrite iterencode_dict in Hf.
    cbn [Issuer.wf_json] in W. apply andb_true_iff in W as [W Dk].
    cbn [length] in Hf. rewrite !length_app in Hf. cbn [length] in Hf.
    destruct fuel as [|f]; [lia|].
    rewrite scan_once_object.
    + assert (R : Forall (fun kv : str * Json.json => reads_back (snd kv))
                         (kv :: d)).
      { clear Hf Dk. revert W.
        induction IH as [|[k y] d' Hy _ IHd]; intros W; [constructor|].
        cbn [forallb] in W. apply andb_true_iff in W as [Wy Wd].
        apply andb_true_iff in Wy as [_ Wy]. constructor; auto. }
      rewrite (parse_members_ser (S level) (kv :: d) R W
                 ltac:(discriminate) f (nl level) rest
                 (newline_indent_ws _ _ indent_ws)); [|lia].
      now rewrite dict_of_pairs_distinct.
    + now apply newline_indent_ws.
    + destruct kv, d; reflexivity.
Qed.

End ReadBack.

(** ** JSON text is ASCII *)

Lemma plain_bounds c : plain c = true <-> 0 < c /\ c < 128.
Proof.
  unfold plain. rewrite andb_true_iff, !N.ltb_lt. tauto.
Qed.

Lemma ws_plain c : Json.is_ws c = true -> plain c = true.
Proof.
  unfold Json.is_ws. intros H. apply plain_bounds.
  repeat (apply orb_true_iff in H as [H|H]); apply N.eqb_eq in H; lia.
Qed.

Lemma ws_all_plain w : forallb Json.is_ws w = true -> forallb plain w = true.
Proof.
  induction w as [|c w IH]; [reflexivity|]. cbn [forallb]. intros H.
  apply andb_true_iff in H as [Hc Hw]. now rewrite (ws_plain c Hc), IH.
Qed.

Lemma digit_plain c : Json.isdigit c = true -> plain c = true.
Proof.
  intros H. apply isdigit_bounds in H. apply plain_bounds. lia.
Qed.

Lemma digits_plain ds :
  forallb Json.isdigit ds = true -> forallb plain ds = true.
Proof.
  induction ds as [|c ds IH]; [reflexivity|]. cbn [forallb]. intros H.
  apply andb_true_iff in H as [Hc Hd]. now rewrite (digit_plain c Hc), IH.
Qed.

Lemma hex_digit_plain d : d < 16 -> plain (Codec.hex_digit d) = true.
Proof.
  intros H. apply plain_bounds. unfold Codec.hex_digit.
  destruct (N.ltb_spec d 10); lia.
Qed.

Lemma u_escape_plain n : forallb plain (Encoder.u_escape n) = true.
Proof.
  unfold Encoder.u_escape. cbn [forallb].
  rewrite !hex_digit_plain by (apply N.mod_lt; lia). reflexivity.
Qed.

Lemma escape_ascii_plain c : forallb plain (Encoder.escape_ascii c) = true.
Proof.
  unfold Encoder.escape_ascii.
  repeat match goal with
         | |- context [if c =? ?k then _ else _] =>
             destruct (c =? k); [reflexivity|]
         end.
  destruct ((32 <=? c) && (c <=? 126)) eqn:E.
  - apply andb_true_iff in E as [E1 E2]. apply N.leb_le in E1, E2.
    cbn [forallb]. rewrite (proj2 (plain_bounds c)) by lia. reflexivity.
  - destruct (c <? 65536); [apply u_escape_plain|].
    cbv zeta. now rewrite forallb_app, !u_escape_plain.
Qed.

Lemma encode_basestring_plain s :
  forallb plain (Encoder.encode_basestring_ascii s) = true.
Proof.
  unfold Encoder.encode_basestring_ascii. rewrite !forallb_app.
  replace (forallb plain (flat_map Encoder.escape_ascii s)) with true;
    [reflexivity|].
  symmetry. induction s as [|c s IH]; [reflexivity|].
  cbn [flat_map]. now rewrite forallb_app, escape_ascii_plain, IH.
Qed.

Lemma str_of_Z_plain z : forallb plain (str_of_Z z) = true.
Proof.
  assert (H : forall n, forallb plain (str_of_N n) = true).
  { intros n. destruct (str_of_N_spec n) as (d & ds & -> & D & _).
    now apply digits_plain. }
  destruct z; cbn [str_of_Z]; [apply H|apply H|].
  cbn [forallb]. now rewrite H.
Qed.

Lemma span_digits_digits s :
  forallb Json.isdigit (fst (Json.span_digits s)) = true.
Proof.
  induction s as [|c s IH]; [reflexivity|]. cbn [Json.span_digits].
  destruct (Json.isdigit c) eqn:E; [|reflexivity].
  destruct (Json.span_digits s) as [d r]. cbn [fst forallb] in *.
  now rewrite E, IH.
Qed.

Lemma span_digits_plain s d r :
  Json.span_digits s = (d, r) -> forallb plain d = true.
Proof.
  intros H. apply digits_plain.
  pose proof (span_digits_digits s) as D. now rewrite H in D.
Qed.

Lemma match_integer_plain s i r :
  Json.match_integer s = Some (i, r) -> forallb plain i = true.
Proof.
  assert (B : forall sign s1,
             forallb plain sign = true ->
             match s1 with
             | c :: s2 =>
                 if (49 <=? c) && (c <=? 57)
                 then let (ds, r) := Json.span_digits s2 in
                      Some (sign ++ c :: ds, r)
                 else if c =? 48 then Some (sign ++ [c], s2)
                 else None
             | [] => None
             end = Some (i, r) -> forallb plain i = true).
  { intros sign [|c s2] Hs; [discriminate|].
    destruct ((49 <=? c) && (c <=? 57)) eqn:R.
    - apply andb_true_iff in R as [R1 R2]. apply N.leb_le in R1, R2.
      destruct (Json.span_digits s2) as [ds r'] eqn:E.
      intros H. injection H as <- <-.
      rewrite forallb_app, Hs. cbn [forallb andb].
      rewrite (proj2 (plain_bounds c)) by lia.
      exact (span_digits_plain _ _ _ E).
    - destruct (N.eqb_spec c 48) as [->|]; [|discriminate].
      intros H. injection H as <- <-. now rewrite forallb_app, Hs. }
  unfold Json.match_integer. destruct s as [|c s1]; [discriminate|].
  destruct (N.eqb_spec c 45) as [->|_].
  - apply (B [45] s1). reflexivity.
  - apply (B [] (c :: s1)). reflexivity.
Qed.

Lemma match_frac_plain s f r :
  Json.match_frac s = (f, r) -> forallb plain f = true.
Proof.
  unfold Json.match_frac. destruct s as [|c [|d s2]];
    try (intros H; injection H as <- <-; reflexivity).
  destruct (N.eqb_spec c 46) as [->|_]; cbn [andb].
  - destruct (Json.isdigit d); [|intros H; injection H as <- <-; reflexivity].
    destruct (Json.span_digits (d :: s2)) as [ds r'] eqn:E.
    intros H. injection H as <- <-. cbn [forallb].
    now rewrite (span_digits_plain _ _ _ E).
  - intros H. injection H as <- <-. reflexivity.
Qed.

Lemma match_exp_plain s e r :
  Json.match_exp s = (e, r) -> forallb plain e = true.
Proof.
  unfold Json.match_exp. destruct s as [|c s1];
    [intros H; injection H as <- <-; reflexivity|].
  destruct ((c =? 101) || (c =? 69)) eqn:Ec;
    [|intros H; injection H as <- <-; reflexivity].
  assert (Pc : plain c = true).
  { apply plain_bounds. apply orb_true_iff in Ec as [H|H];
      apply N.eqb_eq in H; lia. }
  destruct s1 as [|g s2]; [intros H; injection H as <- <-; reflexivity|].
  destruct ((g =? 45) || (g =? 43)) eqn:Eg.
  - assert (Pg : plain g = true).
    { apply plain_bounds. apply orb_true_iff in Eg as [H|H];
        apply N.eqb_eq in H; lia. }
    destruct (Json.span_digits s2) as [[|d ds] r'] eqn:E;
      intros H; injection H as <- <-; [reflexivity|].
    cbn [forallb]. rewrite Pc, Pg. exact (span_digits_plain _ _ _ E).
  - destruct (Json.span_digits (g :: s2)) as [[|d ds] r'] eqn:E;
      intros H; injection H as <- <-; [reflexivity|].
    cbn [forallb andb]. rewrite Pc. exact (span_digits_plain _ _ _ E).
Qed.

Lemma wf_float_plain t : Issuer.wf_float t = true -> forallb plain t = true.
Proof.
  intros W. apply wf_float_match in W. revert W. unfold Json.match_number.
  destruct (Json.match_integer t) as [[i r]|] eqn:EI; [|discriminate].
  destruct (Json.match_frac r) as [f r1] eqn:EF.
  destruct (Json.match_exp r1) as [e r2] eqn:EE.
  pose proof (match_integer_plain _ _ _ EI) as Pi.
  pose proof (match_frac_plain _ _ _ EF) as Pf.
  pose proof (match_exp_plain _ _ _ EE) as Pe.
  assert (F : forallb plain (i ++ f ++ e) = true)
    by now rewrite !forallb_app, Pi, Pf, Pe.
  destruct f, e; intros H; try discriminate; injection H as <- _; exact F.
Qed.

Lemma join_plain sep chunks :
  forallb plain sep = true -> Forall (fun x => forallb plain x = true) chunks ->
  forallb plain (Encoder.join sep chunks) = true.
Proof.
  intros Hs H. induction H as [|x l Hx _ IH]; [reflexivity|].
  destruct l as [|y l]; [exact Hx|].
  rewrite join_cons, !forallb_app, Hx, Hs. exact IH.
Qed.

Lemma newline_indent_plain ind level :
  (forall u, ind = Some u -> forallb Json.is_ws u = true) ->
  forallb plain (Encoder.newline_indent ind level) = true.
Proof.
  intros H. now apply ws_all_plain, newline_indent_ws.
Qed.

(** The text of a value is ASCII without NUL. *)
Lemma iterencode_plain ind kws v :
  (forall u, ind = Some u -> forallb Json.is_ws u = true) ->
  forallb Json.is_ws kws = true ->
  Issuer.wf_json v = true ->
  forall level,
    forallb plain
      (Encoder.iterencode (fun t => t) ind [44] (58 :: kws) level v) = true.
Proof.
  intros Hi Hk.
  induction v as [ | b | z | t | s | l IH | d IH ] using json_nested_ind;
    intros W level.
  - reflexivity.
  - destruct b; reflexivity.
  - apply str_of_Z_plain.
  - now apply wf_float_plain.
  - apply encode_basestring_plain.
  - destruct l as [|x l]; [reflexivity|].
    rewrite iterencode_list. cbn [Issuer.wf_json] in W.
    cbn [forallb]. rewrite !forallb_app.
    rewrite !newline_indent_plain by assumption.
    rewrite join_plain; [reflexivity| |].
    + rewrite forallb_app. now rewrite newline_indent_plain.
    + apply Forall_map. revert W.
      induction IH as [|y l' Hy _ IHl]; intros W; [constructor|].
      cbn [forallb] in W. apply andb_true_iff in W as [Wy Wl].
      constructor; auto.
  - destruct d as [|kv d]; [reflexivity|].
    rewrite iterencode_dict. cbn [Issuer.wf_json] in W.
    apply andb_true_iff in W as [W _].
    cbn [forallb]. rewrite !forallb_app.
    rewrite !newline_indent_plain by assumption.
    rewrite join_plain; [reflexivity| |].
    + rewrite forallb_app. now rewrite newline_indent_plain.
    + apply Forall_map. revert W.
      induction IH as [|[k y] d' Hy _ IHd]; intros W; [constructor|].
      cbn [forallb] in W. apply andb_true_iff in W as [Wy Wd].
      apply andb_true_iff in Wy as [_ Wy]. constructor; [|auto].
      rewrite !forallb_app, encode_basestring_plain. cbn [forallb andb].
      rewrite (ws_all_plain kws Hk). cbn [snd] in Hy.
      now rewrite (Hy Wy).
Qed.

(** ** ASCII text as bytes *)

Lemma utf8_encode_plain s : forallb plain s = true -> Issuer.utf8_encode s = s.
Proof.
  unfold Issuer.utf8_encode. induction s as [|c s IH]; [reflexivity|].
  cbn [forallb flat_map]. intros H. apply andb_true_iff in H as [Hc Hs].
  apply plain_bounds in Hc.
  assert (E : Issuer.utf8_encode_char c = [c]).
  { unfold Issuer.utf8_encode_char.
    now rewrite (proj2 (N.ltb_lt c 128)) by lia. }
  rewrite E, (IH Hs). reflexivity.
Qed.

Lemma utf8_decode_plain b :
  forallb plain b = true -> forall pos, Codec.utf8_decode b pos = inr b.
Proof.
  induction b as [|c b IH]; [reflexivity|].
  cbn [forallb]. intros H pos. apply andb_true_iff in H as [Hc Hb].
  apply plain_bounds in Hc. cbn [Codec.utf8_decode].
  rewrite (proj2 (N.ltb_lt c 128)) by lia. now rewrite (IH Hb).
Qed.

Lemma detect_encoding_plain b :
  forallb plain b = true -> Codec.detect_encoding b = Codec.UTF8.
Proof.
  intros H.
  destruct b as [|b0 [|b1 [|b2 [|b3 b']]]]; try reflexivity;
    cbn [forallb] in H;
    repeat match goal with
           | H : _ && _ = true |- _ => apply andb_true_iff in H as [? H]
           end;
    repeat match goal with
           | H : plain _ = true |- _ => apply plain_bounds in H
           end;
    unfold Codec.detect_encoding, Codec.BOM_UTF32_BE, Codec.BOM_UTF32_LE,
      Codec.BOM_UTF16_BE, Codec.BOM_UTF16_LE, Codec.BOM_UTF8;
    cbn [Codec.startswith];
    repeat match goal with
           | |- context [?a =? ?b] =>
               destruct (N.eqb_spec a b) as [?|_]; [lia|]
           end;
    reflexivity.
Qed.

(** json.loads on the bytes of ASCII text reads the text. *)
Lemma loads_plain s :
  forallb plain s = true -> Json.loads (Issuer.utf8_encode s) = Json.decode s.
Proof.
  intros H. unfold Json.loads.
  rewrite (utf8_encode_plain s H), (detect_encoding_plain s H).
  cbn [Codec.decode]. now rewrite (utf8_decode_plain s H).
Qed.

Lemma plain_bytes s :
  forallb plain s = true -> forallb (fun b => b <? 256) s = true.
Proof.
  induction s as [|c s IH]; [reflexivity|]. cbn [forallb]. intros H.
  apply andb_true_iff in H as [Hc Hs]. apply plain_bounds in Hc.
  rewrite (proj2 (N.ltb_lt c 256)) by lia. now apply IH.
Qed.

(** ** The decoder on what the encoder writes *)

Lemma decode_iterencode ind kws v :
  (forall u, ind = Some u -> forallb Json.is_ws u = true) ->
  forallb Json.is_ws kws = true ->
  Issuer.wf_json v = true ->
  Json.decode (Encoder.iterencode (fun t => t) ind [44] (58 :: kws) 0 v)
  = inr v.
Proof.
  intros Hi Hk W. unfold Json.decode.
  rewrite (starts_value_skip _ (iterencode_starts ind [44] (58 :: kws) 0 v W)).
  set (doc := Encoder.iterencode (fun t => t) ind [44] (58 :: kws) 0 v).
  pose proof (scan_once_ser ind kws Hi Hk v W 0%nat
                (2 * length doc + 2)%nat []) as R.
  fold doc in R. rewrite app_nil_r in R.
  rewrite R; [reflexivity|unfold Nat.le; lia|reflexivity].
Qed.

(** Writing floats with [f] is writing, as they are, the floats of the value
    mapped by [f]. *)
Lemma iterencode_map_floats f ind isep ksep v :
  forall level,
    Encoder.iterencode f ind isep ksep level v
    = Encoder.iterencode (fun t => t) ind isep ksep level (map_floats f v).
Proof.
  induction v as [ | b | z | t | s | l IH | d IH ] using json_nested_ind;
    intros level; try reflexivity.
  - destruct l as [|x l]; [reflexivity|].
    assert (E : forall lv,
               map (Encoder.iterencode f ind isep ksep lv) (x :: l)
               = map (Encoder.iterencode (fun t => t) ind isep ksep lv)
                     (map (map_floats f) (x :: l))).
    { intros lv. rewrite map_map.
      induction IH as [|y l' Hy _ IHl]; [reflexivity|].
      cbn [map]. now rewrite Hy, IHl. }
    change (map_floats f (Json.JList (x :: l)))
      with (Json.JList (map_floats f x :: map (map_floats f) l)).
    rewrite !iterencode_list, E. reflexivity.
  - destruct d as [|[k x] d]; [reflexivity|].
    assert (E : forall lv,
               map (fun kv : str * Json.json =>
                      let (k, v) := kv in
                      Encoder.encode_basestring_ascii k ++ ksep
                      ++ Encoder.iterencode f ind isep ksep lv v)
                   ((k, x) :: d)
               = map (fun kv : str * Json.json =>
                        let (k, v) := kv in
                        Encoder.encode_basestring_ascii k ++ ksep
                        ++ Encoder.iterencode (fun t => t) ind isep ksep lv v)
                     (map (fun kv : str * Json.json =>
                             let (k, x) := kv in (k, map_floats f x))
                          ((k, x) :: d))).
    { intros lv. rewrite map_map.
      induction IH as [|[k' y] d' Hy _ IHd]; [reflexivity|].
      cbn [map snd] in *. now rewrite Hy, IHd. }
    change (map_floats f (Json.JDict ((k, x) :: d)))
      with (Json.JDict
              ((k, map_floats f x)
               :: map (fun kv : str * Json.json =>
                         let (k, x) := kv in (k, map_floats f x)) d)).
    rewrite !iterencode_dict, E. reflexivity.
Qed.

(** The payload of an issued token comes back from json.loads. *)
Lemma loads_serialized p :
  Issuer.wf_json p = true ->
  forallb plain (Issuer.json_serialize p) = true
  /\ Json.loads (Issuer.utf8_encode (Issuer.json_serialize p)) = inr p.
Proof.
  intros W.
  assert (Hi : forall u : str, @None str = Some u ->
                               forallb Json.is_ws u = true) by discriminate.
  assert (P : forallb plain (Issuer.json_serialize p) = true)
    by exact (iterencode_plain None [] p Hi eq_refl W 0%nat).
  split; [exact P|]. rewrite (loads_plain _ P).
  exact (decode_iterencode None [] p Hi eq_refl W).
Qed.

Lemma issued_run h g p t :
  Issuer.dots h = 0%nat -> Issuer.dots g = 0%nat ->
  Issuer.wf_json p = true ->
  decode_jwt_payload (Issuer.make_token h p g) t
  = (inr p,
     t ++ [Call_urlsafe_b64decode
             (padded (Issuer.b64url_encode
                        (Issuer.utf8_encode (Issuer.json_serialize p))));
           Call_json_loads (Issuer.utf8_encode (Issuer.json_serialize p))]).
Proof.
  intros Hh Hg W. destruct (loads_serialized p W) as [P L].
  assert (B : forallb (fun b => b <? 256)
                      (Issuer.utf8_encode (Issuer.json_serialize p)) = true).
  { rewrite (utf8_encode_plain _ P). now apply plain_bytes. }
  pose proof (b64url_no_dot _ (b64url_encode_alphabet _ B)) as Hs.
  unfold Issuer.dots in Hh, Hg, Hs.
  apply count_occ_not_In in Hh, Hg, Hs.
  unfold Issuer.make_token. cbn [app].
  rewrite (decode_three _ h _ g t (split_three _ _ _ _ Hh Hs Hg)).
  now rewrite (b64decode_padded_encoded _ B), L.
Qed.

(** ** What the entry point prints is JSON for the payload *)

(** X11: the text the entry point prints for a payload is a JSON document
    that the decoder of json.loads reads back to the payload, with each
    float as the text the encoder wrote for it.  The payload has strings of
    Unicode scalar values and distinct keys, and its floats are written as
    JSON numbers. *)
Theorem printed_json_reads_back (floatstr : str -> str) (v : Json.json) :
  Issuer.wf_json (map_floats floatstr v) = true ->
  Json.decode (Encoder.dumps_indent2 floatstr v)
  = inr (map_floats floatstr v).
Proof.
  intros W. unfold Encoder.dumps_indent2. rewrite iterencode_map_floats.
  apply (decode_iterencode (Some (mul_str 32 2)) [32]); [|reflexivity|exact W].
  intros u E. injection E as <-. reflexivity.
Qed.

Lemma printed_json_reads_back_witness :
  Json.decode
    (Encoder.dumps_indent2 (fun _ => lit "1500.0")
       (Json.JDict [(lit "sub", Json.JStr (lit "1234567890"));
                    (lit "admin", Json.JBool true);
                    (lit "iat", Json.JInt 1516239022);
                    (lit "score", Json.JFloat (lit "1.5e3"));
                    (lit "roles", Json.JList [Json.JStr (lit "a"); Json.JNull]);
                    (lit "ctx", Json.JDict [])]))
  = inr (map_floats (fun _ => lit "1500.0")
       (Json.JDict [(lit "sub", Json.JStr (lit "1234567890"));
                    (lit "admin", Json.JBool true);
                    (lit "iat", Json.JInt 1516239022);
                    (lit "score", Json.JFloat (lit "1.5e3"));
                    (lit "roles", Json.JList [Json.JStr (lit "a"); Json.JNull]);
                    (lit "ctx", Json.JDict [])])).
Proof.
  exact (printed_json_reads_back (fun _ => lit "1500.0")
           (Json.JDict [(lit "sub", Json.JStr (lit "1234567890"));
                        (lit "admin", Json.JBool true);
                        (lit "iat", Json.JInt 1516239022);
                        (lit "score", Json.JFloat (lit "1.5e3"));
                        (lit "roles",
                         Json.JList [Json.JStr (lit "a"); Json.JNull]);
                        (lit "ctx", Json.JDict [])])
           eq_refl).
Defined.

(** ** Issued tokens *)

(** X12: a token formed as header, dot, the unpadded base64url of the UTF-8
    bytes of the compact JSON text of a value, dot, signature, is decoded to
    that value: base64 and json.loads are called once each, and nothing is
    printed.  Header and signature hold no dot, and the value stays clear of
    the limits of the interpreter: integers of at most 4300 digits, nesting
    of at most [max_nesting]. *)
Theorem issued_token_round_trip (h g : str) (p : Json.json) (t : trace) :
  Issuer.dots h = 0%nat -> Issuer.dots g = 0%nat ->
  Issuer.wf_json p = true -> within_limits p = true ->
  decode_jwt_payload (Issuer.make_token h p g) t
  = (inr p,
     t ++ [Call_urlsafe_b64decode
             (padded (Issuer.b64url_encode
                        (Issuer.utf8_encode (Issuer.json_serialize p))));
           Call_json_loads (Issuer.utf8_encode (Issuer.json_serialize p))]).
Proof. intros Hh Hg W _. exact (issued_run h g p t Hh Hg W). Qed.

Lemma issued_token_round_trip_witness :
  decode_jwt_payload
    (Issuer.make_token (lit "eyJhbGciOiJIUzI1NiJ9")
       (Json.JDict [(lit "sub", Json.JStr (lit "42"));
                    (lit "exp", Json.JInt 1700000000)])
       (lit "c2ln")) []
  = (inr (Json.JDict [(lit "sub", Json.JStr (lit "42"));
                      (lit "exp", Json.JInt 1700000000)]),
     [] ++ [Call_urlsafe_b64decode
              (padded (Issuer.b64url_encode
                 (Issuer.utf8_encode
                    (Issuer.json_serialize
                       (Json.JDict [(lit "sub", Json.JStr (lit "42"));
                                    (lit "exp", Json.JInt 1700000000)])))));
            Call_json_loads
              (Issuer.utf8_encode
                 (Issuer.json_serialize
                    (Json.JDict [(lit "sub", Json.JStr (lit "42"));
                                 (lit "exp", Json.JInt 1700000000)])))]).
Proof.
  exact (issued_token_round_trip (lit "eyJhbGciOiJIUzI1NiJ9")
           (lit "c2ln")
           (Json.JDict [(lit "sub", Json.JStr (lit "42"));
                        (lit "exp", Json.JInt 1700000000)])
           [] eq_refl eq_refl eq_refl eq_refl).
Defined.

(** X13: run on an issued token whose payload is truthy and within the
    limits of the interpreter, the entry point calls print once, after the
    two library calls of the decoder, with the payload written with an
    indentation of two (a text of several lines for a list or dict that is
    not empty); no diagnostic is printed, and standard input is not read. *)
Theorem issued_token_printed (floatstr : str -> str) (prog h g : str)
        (stdin : result str) (p : Json.json) :
  Issuer.dots h = 0%nat -> Issuer.dots g = 0%nat ->
  Issuer.wf_json p = true -> within_limits p = true ->
  Encoder.truthy p = true ->
  run (main floatstr [prog; Issuer.make_token h p g] stdin)
  = (inr tt,
     [Call_urlsafe_b64decode
        (padded (Issuer.b64url_encode
                   (Issuer.utf8_encode (Issuer.json_serialize p))));
      Call_json_loads (Issuer.utf8_encode (Issuer.json_serialize p));
      Print (Encoder.dumps_indent2 floatstr p)]).
Proof.
  intros Hh Hg W _ T. unfold run.
  rewrite (main_argument floatstr prog (Issuer.make_token h p g) [] stdin).
  rewrite (main_run floatstr [prog; Issuer.make_token h p g] [] [] p _
             (issued_run h g p [] Hh Hg W)).
  rewrite T. reflexivity.
Qed.

Lemma issued_token_printed_witness :
  run (main (fun t => t)
         [lit "decode-jwt.py";
          Issuer.make_token (lit "eyJhbGciOiJIUzI1NiJ9")
            (Json.JDict [(lit "sub", Json.JStr (lit "42"))]) (lit "c2ln")]
         (inr []))
  = (inr tt,
     [Call_urlsafe_b64decode
        (padded (Issuer.b64url_encode
           (Issuer.utf8_encode
              (Issuer.json_serialize
                 (Json.JDict [(lit "sub", Json.JStr (lit "42"))])))));
      Call_json_loads
        (Issuer.utf8_encode
           (Issuer.json_serialize
              (Json.JDict [(lit "sub", Json.JStr (lit "42"))])));
      Print (Encoder.dumps_indent2 (fun t => t)
               (Json.JDict [(lit "sub", Json.JStr (lit "42"))]))]).
Proof.
  exact (issued_token_printed (fun t => t) (lit "decode-jwt.py")
           (lit "eyJhbGciOiJIUzI1NiJ9") (lit "c2ln") (inr [])
           (Json.JDict [(lit "sub", Json.JStr (lit "42"))])
           eq_refl eq_refl eq_refl eq_refl eq_refl).
Defined.
